(** * manhwa-cli: scraping, rendering and temporary-resource lifecycle

    A shallow embedding of the chapter-image acquisition and rendering
    pipeline of manhwa-cli: [manhwa_cli/scraper.py],
    [manhwa_cli/utils/pdf_viewer.py], [manhwa_cli/utils/browser.py] and
    [manhwa_cli/utils/viewer.py].

    Everything outside the repository (the network, BeautifulSoup's parser,
    PIL, PyMuPDF, the operating system) is an oracle: a field of a type
    class, so that every theorem holds for every behaviour of the outside
    world, and a concrete instance is used to run the code on fixtures. *)

From Stdlib Require Import Ascii String Floats.
From stdpp Require Import base strings list gmap pretty sorting.

Set Default Proof Using "Type".
Local Open Scope string_scope.
Local Open Scope list_scope.

(** ** Python values and control flow *)

Module Py.

(** Exceptions that are instances of [Exception] (what [except Exception]
    and a bare [except] catch). *)
Inductive exn :=
| KeyError (key : string)
| HTTPError (status : Z)
| FileNotFoundError (path : string)
| OSError (msg : string)
| ValueError (msg : string)
| TclError (msg : string).

(** The outcome of a call that may raise. *)
Inductive result (A : Type) :=
| Ok (a : A)
| Raise (e : exn).
Arguments Ok {A} a.
Arguments Raise {A} e.

Definition bind {A B} (r : result A) (k : A -> result B) : result B :=
  match r with
  | Ok a => k a
  | Raise e => Raise e
  end.

(** [try: r  except Exception: h] *)
Definition try_except {A} (r : result A) (h : exn -> A) : A :=
  match r with
  | Ok a => a
  | Raise e => h e
  end.

(** Truthiness of a [str] and of [None]-or-[str]. *)
Definition truthy (s : string) : bool :=
  match s with EmptyString => false | String _ _ => true end.

Definition truthy_opt (o : option string) : bool :=
  match o with Some s => truthy s | None => false end.

(** [a or b] on [None]-or-[str] values. *)
Definition or_else (a b : option string) : option string :=
  if truthy_opt a then a else b.

(** [a or b] on [str] values. *)
Definition str_or (a b : string) : string :=
  if truthy a then a else b.

(** [c.lower()] on the ASCII range. *)
Definition lower_ascii (c : ascii) : ascii :=
  let n := nat_of_ascii c in
  if (65 <=? n)%nat && (n <=? 90)%nat then ascii_of_nat (n + 32) else c.

Fixpoint lower (s : string) : string :=
  match s with
  | EmptyString => EmptyString
  | String c r => String (lower_ascii c) (lower r)
  end.

(** [needle in hay] *)
Fixpoint contains (needle hay : string) : bool :=
  String.prefix needle hay ||
  match hay with
  | EmptyString => false
  | String _ r => contains needle r
  end.

(** [s.endswith(suffix)] *)
Definition endswith (suffix s : string) : bool :=
  String.prefix (String.rev suffix) (String.rev s).

(** [str.isspace] on one ASCII character: space, \t, \n, \v, \f, \r and
    the four separators 0x1c-0x1f. *)
Definition is_space (c : ascii) : bool :=
  let n := nat_of_ascii c in
  (n =? 32)%nat || ((9 <=? n)%nat && (n <=? 13)%nat)
  || ((28 <=? n)%nat && (n <=? 31)%nat).

Fixpoint lstrip (s : string) : string :=
  match s with
  | EmptyString => EmptyString
  | String c r => if is_space c then lstrip r else s
  end.

(** [s.strip()] *)
Definition strip (s : string) : string :=
  String.rev (lstrip (String.rev (lstrip s))).

(** [s.replace(a, b)] for one-character [a] and [b]. *)
Fixpoint replace_char (a b : ascii) (s : string) : string :=
  match s with
  | EmptyString => EmptyString
  | String c r =>
      String (if Ascii.eqb c a then b else c) (replace_char a b r)
  end.

(** [s.split()] : split on runs of whitespace, dropping empty fields. *)
Fixpoint split_ws_aux (cur : string) (s : string) : list string :=
  match s with
  | EmptyString => if truthy cur then [String.rev cur] else []
  | String c r =>
      if is_space c
      then (if truthy cur then String.rev cur :: split_ws_aux "" r
            else split_ws_aux "" r)
      else split_ws_aux (String c cur) r
  end.

Definition split_ws (s : string) : list string := split_ws_aux "" s.

(** [s.split('\n')] *)
Fixpoint split_lines_aux (cur : string) (s : string) : list string :=
  match s with
  | EmptyString => [String.rev cur]
  | String c r =>
      if Ascii.eqb c "010" then String.rev cur :: split_lines_aux "" r
      else split_lines_aux (String c cur) r
  end.

Definition split_lines (s : string) : list string := split_lines_aux "" s.

(** [l[:n]] for a Python [int] [n]: a negative [n] counts from the end. *)
Definition slice_to {A} (l : list A) (n : Z) : list A :=
  if (0 <=? n)%Z then take (Z.to_nat n) l
  else take (length l - Z.to_nat (- n)) l.

(** [enumerate(l)] *)
Definition enumerate {A} (l : list A) : list (nat * A) :=
  imap (fun i x => (i, x)) l.

(** [any(p(x) for x in l)] *)
Definition any {A} (p : A -> bool) (l : list A) : bool := existsb p l.

End Py.

Import Py.

(** ** BeautifulSoup documents and the CSS selectors the scraper uses *)

Module Soup.

Definition attrs := list (string * string).

(** A parsed document: tags with their attributes and contents, and
    text. *)
#[warnings="-register-all"] Inductive node :=
| Tag (name : string) (attributes : attrs) (contents : list node)
| NavigableString (s : string).

(** A handle on a tag inside a document, as BeautifulSoup gives it: the
    tag itself and its chain of parents, nearest first. *)
Record element := {
  el_name : string;
  el_attrs : attrs;
  el_contents : list node;
  el_parents : list (string * attrs)
}.

(** [BeautifulSoup(markup, 'html.parser')]: the document object is itself
    a tag, named [[document]], over the top-level nodes. *)
Definition BeautifulSoup (top : list node) : element :=
  {| el_name := "[document]"; el_attrs := []; el_contents := top;
     el_parents := [] |}.

Fixpoint lookup_attr (k : string) (a : attrs) : option string :=
  match a with
  | [] => None
  | (k', v) :: r => if String.eqb k k' then Some v else lookup_attr k r
  end.

(** [tag.get(key)] *)
Definition get (e : element) (key : string) : option string :=
  lookup_attr key (el_attrs e).

(** [tag.get(key, '')] *)
Definition get_default (e : element) (key : string) : string :=
  default "" (get e key).

(** [tag[key]] *)
Definition getitem (e : element) (key : string) : result string :=
  match get e key with
  | Some v => Ok v
  | None => Raise (KeyError key)
  end.

(** [key in tag.attrs] *)
Definition has_attr (e : element) (key : string) : bool :=
  bool_decide (is_Some (get e key)).

(** [tag.text]: all the strings below the tag, concatenated. *)
Fixpoint node_text (n : node) : string :=
  match n with
  | NavigableString s => s
  | Tag _ _ cs =>
      (fix go (l : list node) : string :=
         match l with
         | [] => ""
         | c :: r => node_text c +:+ go r
         end) cs
  end.

Definition text (e : element) : string :=
  node_text (Tag (el_name e) (el_attrs e) (el_contents e)).

(** The tags of a subtree in document order, the root first, each with
    its chain of parents. *)
Fixpoint tags_of (parents : list (string * attrs)) (n : node)
  : list element :=
  match n with
  | NavigableString _ => []
  | Tag name a cs =>
      {| el_name := name; el_attrs := a; el_contents := cs;
         el_parents := parents |}
      :: (fix go (l : list node) : list element :=
            match l with
            | [] => []
            | c :: r => tags_of ((name, a) :: parents) c ++ go r
            end) cs
  end.

(** The tags strictly below [e], in document order. *)
Definition descendants (e : element) : list element :=
  flat_map (tags_of ((el_name e, el_attrs e) :: el_parents e))
           (el_contents e).

(** A compound selector: [tag#id.class1.class2[attr*="v"]]. *)
Record compound := {
  sel_tag : option string;
  sel_id : option string;
  sel_classes : list string;
  sel_attr_contains : option (string * string)
}.

(** A selector: compounds joined by the descendant combinator, the last
    one optionally carrying [:has(compound)]. *)
Record selector := {
  sel_ancestors : list compound;   (* nearest ancestor first *)
  sel_subject : compound;
  sel_has : option compound
}.

Definition classes_of (a : attrs) : list string :=
  split_ws (default "" (lookup_attr "class" a)).

Definition matches_compound (c : compound) (name : string) (a : attrs)
  : bool :=
  match sel_tag c with Some t => String.eqb t name | None => true end
  && match sel_id c with
     | Some i => bool_decide (lookup_attr "id" a = Some i)
     | None => true
     end
  && forallb (fun k => bool_decide (k ∈ classes_of a)) (sel_classes c)
  && match sel_attr_contains c with
     | Some (k, v) =>
         match lookup_attr k a with
         | Some w => contains v w
         | None => false
         end
     | None => true
     end.

(** Every compound of the chain is matched by some parent, in order. *)
Fixpoint matches_ancestors (cs : list compound)
  (parents : list (string * attrs)) : bool :=
  match cs with
  | [] => true
  | c :: rest =>
      (fix find (ps : list (string * attrs)) : bool :=
         match ps with
         | [] => false
         | (n, a) :: ps' =>
             if matches_compound c n a then matches_ancestors rest ps'
             else find ps'
         end) parents
  end.

Definition matches (s : selector) (e : element) : bool :=
  matches_compound (sel_subject s) (el_name e) (el_attrs e)
  && matches_ancestors (sel_ancestors s) (el_parents e)
  && match sel_has s with
     | Some h =>
         existsb (fun d => matches_compound h (el_name d) (el_attrs d))
                 (descendants e)
     | None => true
     end.

(** [tag.select(selector)] *)
Definition select (s : selector) (e : element) : list element :=
  filter (fun d => matches s d = true) (descendants e).

(** [tag.select_one(selector)] *)
Definition select_one (s : selector) (e : element) : option element :=
  head (select s e).

(** [a or b] on [select_one] results: a tag is always truthy. *)
Definition first_of (a b : option element) : option element :=
  match a with Some _ => a | None => b end.

(** Selector syntax. *)
Definition by_tag (t : string) : compound :=
  {| sel_tag := Some t; sel_id := None; sel_classes := [];
     sel_attr_contains := None |}.
Definition by_id (i : string) : compound :=
  {| sel_tag := None; sel_id := Some i; sel_classes := [];
     sel_attr_contains := None |}.
Definition by_class (ks : list string) : compound :=
  {| sel_tag := None; sel_id := None; sel_classes := ks;
     sel_attr_contains := None |}.
Definition by_tag_class (t : string) (ks : list string) : compound :=
  {| sel_tag := Some t; sel_id := None; sel_classes := ks;
     sel_attr_contains := None |}.
Definition just (c : compound) : selector :=
  {| sel_ancestors := []; sel_subject := c; sel_has := None |}.
Definition under (ancestors : list compound) (c : compound) : selector :=
  {| sel_ancestors := ancestors; sel_subject := c; sel_has := None |}.

End Soup.

Import Soup.

(** ** scraper.py *)

Module SearchResult.
(** One search result: the dict built by [search_manhwa]. The key [views]
    is only present in results of the primary container path. *)
Record t := {
  title : string;
  url : option string;
  image_url : option string;
  rating : string;
  views : option string
}.
End SearchResult.

Module Chapter.
(** One chapter: the dict built by [get_chapters]. *)
Record t := {
  index : nat;
  title : string;
  url : string;
  release_date : string
}.
End Chapter.

Module Scraper.

Definition BASE_URL : string := "https://toonily.com".
Definition SEARCH_URL : string := BASE_URL +:+ "/wp-admin/admin-ajax.php".

(** A [requests] response: its status, its body parsed by
    [BeautifulSoup(_, 'html.parser')], and its raw bytes. *)
Record response := {
  status_code : Z;
  soup : element;
  content : list Byte.byte
}.

(** [response.raise_for_status()] *)
Definition raise_for_status (r : response) : result unit :=
  if (400 <=? status_code r)%Z && (status_code r <? 600)%Z
  then Raise (HTTPError (status_code r))
  else Ok tt.

(** The outside world of the scraper. *)
Class Network := {
  (** [urllib.parse.quote_plus] *)
  quote_plus : string -> string;
  (** [scraper.get(url, timeout=15)] *)
  scraper_get : string -> result response;
  (** [scraper.get(url, headers=headers, timeout=15)], for the [i]-th
      image of a chapter *)
  scraper_get_image : nat -> string -> attrs -> result response;
  (** [scraper.post(url, data=data, timeout=15)] *)
  scraper_post : string -> attrs -> result response
}.

(** *** Selectors *)

(** ['.page-listing-item'] *)
Definition sel_result_container : selector :=
  just (by_class ["page-listing-item"]).
(** ['.page-item-detail.manga'] *)
Definition sel_manga_item : selector :=
  just (by_class ["page-item-detail"; "manga"]).
(** ['.post-title h3 a'] *)
Definition sel_title : selector :=
  under [by_tag "h3"; by_class ["post-title"]] (by_tag "a").
(** ['.img-responsive'] *)
Definition sel_img : selector := just (by_class ["img-responsive"]).
(** ['#averagerate'] *)
Definition sel_rating : selector := just (by_id "averagerate").
(** ['.item:has(.icon.ion-md-eye)'] *)
Definition sel_views : selector :=
  {| sel_ancestors := []; sel_subject := by_class ["item"];
     sel_has := Some (by_class ["icon"; "ion-md-eye"]) |}.
(** ['a'] and ['img'] *)
Definition sel_a : selector := just (by_tag "a").
Definition sel_all_img : selector := just (by_tag "img").
(** ['#reader-content'] and ['.reading-content'] *)
Definition sel_reader_content : selector := just (by_id "reader-content").
Definition sel_reading_content : selector :=
  just (by_class ["reading-content"]).
(** ['a.reading-mode'] and ['a[href*="reader"]'] *)
Definition sel_reading_mode : selector :=
  just (by_tag_class "a" ["reading-mode"]).
Definition sel_href_reader : selector :=
  just {| sel_tag := Some "a"; sel_id := None; sel_classes := [];
          sel_attr_contains := Some ("href", "reader") |}.

Definition chapter_selectors : list selector := [
  just (by_class ["wp-manga-chapter"]);
  under [by_class ["main"; "version-chap"]] (by_tag "li");
  under [by_class ["version-chap"]] (by_tag "li");
  just (by_class ["chapter-item"]);
  under [by_class ["chapters"]] (by_tag "li")
].

Definition date_selectors : list selector := [
  just (by_class ["chapter-release-date"]);
  just (by_class ["date"]);
  just (by_class ["chapterdate"]);
  just (by_tag_class "span" ["date"])
].

(** *** search_manhwa *)

(** [any(r.get('title') == title for r in results)] *)
Definition seen (results : list SearchResult.t) (title : string) : bool :=
  any (fun r => String.eqb (SearchResult.title r) title) results.

(** [el.text.strip() if el else "N/A"] *)
Definition text_or_na (el : option element) : string :=
  match el with
  | Some e => strip (text e)
  | None => "N/A"
  end.

(** The body of the loop over the items of the results container
    (lines 80-111): the thumbnail falls back to [data-src] and the record
    carries [views]. *)
Definition add_container_item (results : list SearchResult.t)
  (item : element) : list SearchResult.t :=
  match select_one sel_title item with
  | Some title_el =>
      let title := strip (text title_el) in
      let url := get title_el "href" in
      let img_el := select_one sel_img item in
      let image_url :=
        match img_el with
        | Some i => or_else (get i "src") (get i "data-src")
        | None => None
        end in
      let rating := text_or_na (select_one sel_rating item) in
      let views := text_or_na (select_one sel_views item) in
      if negb (seen results title)
      then results ++ [ {| SearchResult.title := title;
                           SearchResult.url := url;
                           SearchResult.image_url := image_url;
                           SearchResult.rating := rating;
                           SearchResult.views := Some views |} ]
      else results
  | None => results
  end.

(** The body of the three other loops (lines 118-140, 157-179 and
    210-231): no [data-src] fallback and no [views] key. *)
Definition add_item (results : list SearchResult.t) (item : element)
  : list SearchResult.t :=
  match select_one sel_title item with
  | Some title_el =>
      let title := strip (text title_el) in
      let url := get title_el "href" in
      if negb (seen results title)
      then
        let img_el := select_one sel_img item in
        let image_url :=
          match img_el with
          | Some i => get i "src"
          | None => None
          end in
        let rating := text_or_na (select_one sel_rating item) in
        results ++ [ {| SearchResult.title := title;
                        SearchResult.url := url;
                        SearchResult.image_url := image_url;
                        SearchResult.rating := rating;
                        SearchResult.views := None |} ]
      else results
  | None => results
  end.

(** [soup.select_one('#reader-content') or
    soup.select_one('.reading-content')] *)
Definition reader_container (soup : element) : option element :=
  first_of (select_one sel_reader_content soup)
           (select_one sel_reading_content soup).

(** [soup.select_one('a.reading-mode') or
    soup.select_one('a[href*="reader"]')] *)
Definition reader_link (soup : element) : option element :=
  first_of (select_one sel_reading_mode soup)
           (select_one sel_href_reader soup).

Section WithNetwork.
Context `{Net : Network}.

Definition search_url (query : string) : string :=
  BASE_URL +:+ "/search/" +:+ quote_plus query.

Definition alt_search_url (query : string) : string :=
  BASE_URL +:+ "/?s=" +:+ quote_plus query +:+ "&post_type=wp-manga".

Definition search_params (query : string) : attrs := [
  ("action", "madara_load_more");
  ("page", "0");
  ("template", "madara-core/content/content-search");
  ("vars[s]", query);
  ("vars[orderby]", "relevance");
  ("vars[paged]", "1");
  ("vars[template]", "search");
  ("vars[post_type]", "wp-manga");
  ("vars[post_status]", "publish")
].

(** The first [try] block (lines 58-184): the search page, then the
    alternate search URL. An exception leaves [results] as it is. *)
Definition search_direct (query : string) : list SearchResult.t :=
  let results := [] in
  match scraper_get (search_url query) with
  | Raise _ => results
  | Ok response =>
      if (status_code response =? 200)%Z then
        let results :=
          match select_one sel_result_container (soup response) with
          | Some result_container =>
              foldl add_container_item results
                    (select sel_manga_item result_container)
          | None =>
              foldl add_item results (select sel_manga_item (soup response))
          end in
        if bool_decide (results = []) then
          match scraper_get (alt_search_url query) with
          | Raise _ => results
          | Ok alt_response =>
              if (status_code alt_response =? 200)%Z
              then foldl add_item results
                         (select sel_manga_item (soup alt_response))
              else results
          end
        else results
      else results
  end.

(** The second [try] block (lines 187-233): the AJAX endpoint, asked only
    when nothing was found so far. *)
Definition search_api (query : string) (results : list SearchResult.t)
  : list SearchResult.t :=
  if bool_decide (results = []) then
    match scraper_post SEARCH_URL (search_params query) with
    | Raise _ => results
    | Ok api_response =>
        if (status_code api_response =? 200)%Z
        then foldl add_item results
                   (select sel_manga_item (soup api_response))
        else results
    end
  else results.

(** [results] as it stands at line 236. *)
Definition search_accumulated (query : string) : list SearchResult.t :=
  search_api query (search_direct query).

Definition search_manhwa (query : string) (limit : Z)
  : list SearchResult.t :=
  let results := search_accumulated query in
  if bool_decide (results = []) then [] else slice_to results limit.

(** *** get_chapters *)

(** The loop over [chapter_selectors] (lines 277-283): the items of the
    first selector that finds any. *)
Fixpoint find_chapter_items (selectors : list selector) (soup : element)
  : list element :=
  match selectors with
  | [] => []
  | selector :: rest =>
      let items := select selector soup in
      if bool_decide (items = []) then find_chapter_items rest soup
      else items
  end.

(** The test of lines 294-295 on one hyperlink. *)
Definition is_chapter_link (link : element) : bool :=
  let href := get_default link "href" in
  let text := strip (text link) in
  contains "chapter" (lower href) || contains "chap-" (lower href)
  || contains "chapter" (lower text) || contains "chap" (lower text).

(** The loop of lines 301-309 over the enumerated chapter links. *)
Fixpoint append_links (links : list (nat * element))
  (chapters : list Chapter.t) : result (list Chapter.t) :=
  match links with
  | [] => Ok chapters
  | (idx, link) :: rest =>
      let title := strip (text link) in
      bind (getitem link "href") (fun url =>
      append_links rest
        (chapters ++ [ {| Chapter.index := idx + 1;
                          Chapter.title := title;
                          Chapter.url := url;
                          Chapter.release_date := "N/A" |} ]))
  end.

(** The loop of lines 328-332 over [date_selectors]. *)
Fixpoint find_release_date (selectors : list selector) (item : element)
  : string :=
  match selectors with
  | [] => "N/A"
  | selector :: rest =>
      match select_one selector item with
      | Some date_element => strip (text date_element)
      | None => find_release_date rest item
      end
  end.

(** The loop of lines 313-339 over the enumerated, reversed items. *)
Fixpoint append_items (items : list (nat * element))
  (chapters : list Chapter.t) : result (list Chapter.t) :=
  match items with
  | [] => Ok chapters
  | (idx, item) :: rest =>
      match select_one sel_a item with
      | Some chapter_link =>
          let title := strip (text chapter_link) in
          bind (getitem chapter_link "href") (fun url =>
          let release_date := find_release_date date_selectors item in
          append_items rest
            (chapters ++ [ {| Chapter.index := idx + 1;
                              Chapter.title := title;
                              Chapter.url := url;
                              Chapter.release_date := release_date |} ]))
      | None => append_items rest chapters
      end
  end.

(** An entry of the chapter list that holds a hyperlink with a target. *)
Definition has_link (item : element) : Prop :=
  exists link href,
    select_one sel_a item = Some link /\ get link "href" = Some href.

(** [chapter] is the record of the entry [item]: title and target of its
    first hyperlink, and its release date. *)
Definition lists_entry (chapter : Chapter.t) (item : element) : Prop :=
  exists link,
    select_one sel_a item = Some link
    /\ Chapter.title chapter = strip (text link)
    /\ get link "href" = Some (Chapter.url chapter)
    /\ Chapter.release_date chapter = find_release_date date_selectors item.

(** [chapter] is the record of the hyperlink [link]. *)
Definition lists_link (chapter : Chapter.t) (link : element) : Prop :=
  Chapter.title chapter = strip (text link)
  /\ get link "href" = Some (Chapter.url chapter)
  /\ Chapter.release_date chapter = "N/A".

(** The body of [get_chapters] once the page is parsed (lines 266-341). *)
Definition chapters_of_soup (soup : element) : result (list Chapter.t) :=
  let chapters := [] in
  let chapter_items := find_chapter_items chapter_selectors soup in
  if bool_decide (chapter_items = []) then
    let all_links := select sel_a soup in
    let chapter_links :=
      filter (fun link => is_chapter_link link = true) all_links in
    if negb (bool_decide (chapter_links = []))
    then append_links (enumerate chapter_links) chapters
    else append_items (enumerate (reverse chapter_items)) chapters
  else append_items (enumerate (reverse chapter_items)) chapters.

Definition get_chapters (manhwa_url : string) : list Chapter.t :=
  try_except
    (bind (scraper_get manhwa_url) (fun response =>
     bind (raise_for_status response) (fun _ =>
     chapters_of_soup (soup response))))
    (fun _ => []).

(** *** get_chapter_url *)

Definition get_chapter_url (chapter_url : string) : string :=
  try_except
    (bind (scraper_get chapter_url) (fun response =>
     if (status_code response =? 200)%Z then
       let soup := soup response in
       match reader_container soup with
       | Some _ =>
           match reader_link soup with
           | Some link =>
               if has_attr link "href"
               then getitem link "href"
               else Ok chapter_url
           | None => Ok chapter_url
           end
       | None => Ok chapter_url
       end
     else Ok chapter_url))
    (fun _ => chapter_url).

(** *** download_chapter_images *)

(** [data_src or data_lazy_src or src] *)
Definition img_url_of (img : element) : string :=
  let src := get_default img "src" in
  let data_src := get_default img "data-src" in
  let data_lazy_src := get_default img "data-lazy-src" in
  str_or data_src (str_or data_lazy_src src).

(** Lines 421-455: the image URLs of a chapter page. *)
Definition image_urls_of (soup : element) : list string :=
  match reader_container soup with
  | None =>
      filter
        (fun img_url =>
           truthy img_url
           && (contains "chapter" img_url || contains "manga" img_url
               || contains "comic" img_url) = true)
        (map img_url_of (select sel_all_img soup))
  | Some reader_container =>
      filter (fun img_url => truthy img_url = true)
             (map img_url_of (select sel_all_img reader_container))
  end.

Definition image_headers (chapter_url : string) : attrs := [
  ("Referer", chapter_url);
  ("User-Agent",
   "Mozilla/5.0 (Macintosh; Intel Mac OS X 10_15_7) AppleWebKit/537.36 (KHTML, like Gecko) Chrome/91.0.4472.124 Safari/537.36")
].

(** The [try] body of lines 463-474 for one image: its bytes, or the
    exception. *)
Definition fetch_image (chapter_url : string) (i : nat) (img_url : string)
  : result (list Byte.byte) :=
  bind (scraper_get_image i img_url (image_headers chapter_url))
       (fun img_response =>
  bind (raise_for_status img_response) (fun _ =>
  Ok (content img_response))).

(** The bytes of the [i]-th image, when its download succeeds. *)
Definition fetched (chapter_url : string) (i : nat) (img_url : string)
  : option (list Byte.byte) :=
  match fetch_image chapter_url i img_url with
  | Ok content => Some content
  | Raise _ => None
  end.

(** The loop of lines 462-477. *)
Fixpoint download_loop (chapter_url : string)
  (image_urls : list (nat * string)) (images : list (list Byte.byte))
  : list (list Byte.byte) :=
  match image_urls with
  | [] => images
  | (i, img_url) :: rest =>
      let images :=
        try_except
          (bind (fetch_image chapter_url i img_url) (fun content =>
           Ok (images ++ [content])))
          (fun _ => images) in
      download_loop chapter_url rest images
  end.

(** [None] is the failure signal. *)
Definition download_chapter_images (chapter_url chapter_title : string)
  : option (list (list Byte.byte)) :=
  let images := [] in
  try_except
    (bind (scraper_get chapter_url) (fun response =>
     bind (raise_for_status response) (fun _ =>
     let image_urls := image_urls_of (soup response) in
     let images :=
       download_loop chapter_url (enumerate image_urls) images in
     if bool_decide (images = []) then Ok None else Ok (Some images))))
    (fun _ => None).

End WithNetwork.

End Scraper.

(** ** The file system, the registry of temporary directories, and the
    operating system *)

Module Runtime.

(** The part of the process state the lifecycle code reads and writes. *)
Record world := {
  (** the directories that exist, each with the names of its entries *)
  fs : gmap string (list string);
  (** [browser.temp_directories] *)
  temp_directories : list string;
  (** the number of calls made so far whose outcome the outside world
      decides: the oracles below may answer differently as time passes *)
  clock : nat;
  (** a log of the directories [shutil.rmtree] has removed, in order *)
  removed : list string
}.

(** The outside world of the lifecycle code. *)
Class System := {
  (** [platform.system()] *)
  platform_system : string;
  (** [tempfile.mkdtemp(prefix=prefix)]: the path it picks, or its
      exception *)
  mkdtemp_pick : string -> world -> result string;
  (** [shutil.rmtree] on an existing directory raises (entries in use,
      permissions) *)
  rmtree_denied : nat -> string -> bool;
  (** [open(path, 'a+b')] raises: the file is held by another process *)
  open_denied : nat -> string -> bool;
  (** [subprocess.run(args, capture_output=True, text=True).stdout], or
      the exception when the program cannot be started *)
  subprocess_run : nat -> list string -> result string
}.

(** A computation on the world that may raise: what it has done to the
    world before raising stays done. *)
Definition M (A : Type) : Type := world -> world * result A.

Definition ret {A} (a : A) : M A := fun w => (w, Ok a).

Definition raise {A} (e : exn) : M A := fun w => (w, Raise e).

Definition sbind {A B} (c : M A) (k : A -> M B) : M B :=
  fun w =>
    match c w with
    | (w', Ok a) => k a w'
    | (w', Raise e) => (w', Raise e)
    end.

(** [try: c  except Exception as e: h e] *)
Definition try_catch {A} (c : M A) (h : exn -> M A) : M A :=
  fun w =>
    match c w with
    | (w', Ok a) => (w', Ok a)
    | (w', Raise e) => h e w'
    end.

Definition lift {A} (r : result A) : M A := fun w => (w, r).

Definition tick : M nat :=
  fun w =>
    ({| fs := fs w; temp_directories := temp_directories w;
        clock := S (clock w); removed := removed w |},
     Ok (clock w)).

Definition set_fs (f : gmap string (list string)) : M unit :=
  fun w =>
    ({| fs := f; temp_directories := temp_directories w;
        clock := clock w; removed := removed w |},
     Ok tt).

Definition set_temp_directories (l : list string) : M unit :=
  fun w =>
    ({| fs := fs w; temp_directories := l;
        clock := clock w; removed := removed w |},
     Ok tt).

Definition log_removed (d : string) : M unit :=
  fun w =>
    ({| fs := fs w; temp_directories := temp_directories w;
        clock := clock w; removed := removed w ++ [d] |},
     Ok tt).

Definition get_world : M world := fun w => (w, Ok w).

(** [c] never raises. *)
Definition never_raises {A} (c : M A) : Prop :=
  forall w, exists a, (c w).2 = Ok a.

(** A property of the disk: of the directories that exist and of the log
    of removals. *)
Definition disk_property : Type :=
  gmap string (list string) -> list string -> Prop.

(** [c] keeps [J]. *)
Definition keeps {A} (J : disk_property) (c : M A) : Prop :=
  forall w, J (fs w) (removed w) -> J (fs (c w).1) (removed (c w).1).

(** [J] survives the removal of an existing directory among [D]. *)
Definition removal_closed (D : string -> Prop) (J : disk_property) : Prop :=
  forall f r d,
    D d -> J f r -> is_Some (f !! d) -> J (delete d f) (r ++ [d]).

(** The log holds every directory once, and none of them exists. *)
Definition logged : disk_property :=
  fun f r => NoDup r /\ forall d, d ∈ r -> f !! d = None.

End Runtime.

Import Runtime.

Declare Scope world_scope.
Delimit Scope world_scope with world.
Notation "'let!' x ':=' c 'in' k" := (sbind c (fun x => k))
  (at level 10, x name, c at level 100, k at level 200) : world_scope.
Notation "c ';;' k" := (sbind c (fun _ => k))
  (at level 100, k at level 200, right associativity) : world_scope.

Module Os.
Section WithSystem.
Context `{Sys : System}.
Local Open Scope world_scope.

(** [os.path.exists(path)] for a directory *)
Definition exists_ (path : string) : M bool :=
  let! w := get_world in ret (bool_decide (is_Some (fs w !! path))).

(** [os.listdir(path)] *)
Definition listdir (path : string) : M (list string) :=
  let! w := get_world in
  match fs w !! path with
  | Some entries => ret entries
  | None => raise (FileNotFoundError path)
  end.

(** [os.path.join(dir, name)] *)
Definition join (dir name : string) : string := dir +:+ "/" +:+ name.

(** [tempfile.mkdtemp(prefix=prefix)]: a new, empty directory. *)
Definition mkdtemp (prefix : string) : M string :=
  let! w := get_world in
  let! path := lift (mkdtemp_pick prefix w) in
  match fs w !! path with
  | Some _ => raise (OSError "mkdtemp: no usable temporary directory name")
  | None => set_fs (<[path := []]> (fs w)) ;; ret path
  end.

(** [shutil.rmtree(path)] *)
Definition rmtree (path : string) : M unit :=
  let! w := get_world in
  match fs w !! path with
  | None => raise (FileNotFoundError path)
  | Some _ =>
      let! now := tick in
      if rmtree_denied now path
      then raise (OSError "rmtree: cannot remove")
      else set_fs (delete path (fs w)) ;; log_removed path
  end.

(** Writing the file [name] into the directory [dir]. *)
Definition write_file (dir name : string) : M unit :=
  let! w := get_world in
  match fs w !! dir with
  | None => raise (FileNotFoundError dir)
  | Some entries =>
      if bool_decide (name ∈ entries) then ret tt
      else set_fs (<[dir := entries ++ [name]]> (fs w))
  end.

(** [os.remove(os.path.join(dir, name))] *)
Definition remove (dir name : string) : M unit :=
  let! w := get_world in
  match fs w !! dir with
  | None => raise (FileNotFoundError (join dir name))
  | Some entries =>
      if bool_decide (name ∈ entries)
      then set_fs (<[dir := filter (fun n => n <> name) entries]> (fs w))
      else raise (FileNotFoundError (join dir name))
  end.

End WithSystem.
End Os.

(** ** utils/pdf_viewer.py *)

Module PdfViewer.

(** A decoded PIL image, as far as the renderer looks at it. *)
Record pil_image := {
  mode : string;
  size : Z * Z
}.

(** A page of the [fitz] document under construction: its size, and the
    image inserted into it, if any. *)
Record page := {
  page_width : Z;
  page_height : Z;
  page_image : option pil_image
}.

Definition document := list page.

(** PIL and PyMuPDF. An oracle that takes a [nat] is asked about the
    image at that position of the chapter. *)
Class Imaging := {
  (** [Image.open(io.BytesIO(img_data))] *)
  Image_open : list Byte.byte -> result pil_image;
  (** [pil_img.save(temp_img_path, "JPEG", quality=90)] raises *)
  save_raises : nat -> pil_image -> bool;
  (** [doc.new_page(width=width, height=height)] raises *)
  new_page_raises : nat -> Z -> Z -> bool;
  (** [page.insert_image(rect, filename=temp_img_path)] raises *)
  insert_image_raises : nat -> pil_image -> bool;
  (** [fitz.open()] raises *)
  fitz_open_raises : bool;
  (** [doc.set_metadata(...)] raises *)
  set_metadata_raises : document -> bool;
  (** [doc.save(pdf_path)] raises *)
  doc_save_raises : document -> string -> bool;
  (** [doc.close()] raises *)
  doc_close_raises : document -> bool
}.

(** [pil_img.convert('RGB')] *)
Definition convert_RGB (img : pil_image) : pil_image :=
  {| mode := "RGB"; size := size img |}.

(** [doc.new_page(width=width, height=height)] on success *)
Definition new_page (doc : document) (width height : Z) : document :=
  doc ++ [ {| page_width := width; page_height := height;
              page_image := None |} ].

(** [page.insert_image(rect, filename=temp_img_path)] on success, [page]
    being the page [new_page] has just appended *)
Definition insert_image (doc : document) (img : pil_image) : document :=
  match reverse doc with
  | [] => doc
  | p :: before =>
      reverse before ++ [ {| page_width := page_width p;
                             page_height := page_height p;
                             page_image := Some img |} ]
  end.

(** Lines 55-56: RGBA is converted to RGB, any other mode is kept. *)
Definition normalized (pil_img : pil_image) : pil_image :=
  if String.eqb (mode pil_img) "RGBA" then convert_RGB pil_img
  else pil_img.

Definition raises_if (b : bool) (e : exn) : result unit :=
  if b then Raise e else Ok tt.

Section WithImaging.
Context `{Sys : System} `{Img : Imaging}.
Local Open Scope world_scope.

(** Lines 52-60 for the image at [idx]: decode, drop the alpha channel,
    write the temporary JPEG. *)
Definition prepare_image (temp_dir : string) (idx : nat)
  (img_data : list Byte.byte) : M pil_image :=
  let! pil_img := lift (Image_open img_data) in
  let pil_img := normalized pil_img in
  let temp_img := "temp_img_" +:+ pretty idx +:+ ".jpg" in
  lift (raises_if (save_raises idx pil_img) (OSError "cannot write JPEG")) ;;
  Os.write_file temp_dir temp_img ;;
  ret pil_img.

(** The image embedded for the payload at [idx], when every step of its
    processing goes through. *)
Definition embedded (idx : nat) (img_data : list Byte.byte)
  : option pil_image :=
  match Image_open img_data with
  | Raise _ => None
  | Ok src =>
      let pil_img := normalized src in
      if save_raises idx pil_img
         || new_page_raises idx (size pil_img).1 (size pil_img).2
         || insert_image_raises idx pil_img
      then None
      else Some pil_img
  end.

(** The pages the payload at [idx] adds to the document, when its
    temporary file can be written: none when a step before [new_page]
    raises, a page without image when [insert_image] raises. *)
Definition pages_of (idx : nat) (img_data : list Byte.byte) : list page :=
  match Image_open img_data with
  | Raise _ => []
  | Ok src =>
      let pil_img := normalized src in
      if save_raises idx pil_img then []
      else
        let '(width, height) := size pil_img in
        if new_page_raises idx width height then []
        else [ {| page_width := width; page_height := height;
                  page_image := if insert_image_raises idx pil_img
                                then None else Some pil_img |} ]
  end.

(** The body of the loop of lines 49-79: one [try] whose handler only
    prints a warning, so the document stays as it is when the exception is
    raised. *)
Definition add_image (temp_dir : string) (idx : nat)
  (img_data : list Byte.byte) (doc : document) : M document :=
  fun w =>
    match prepare_image temp_dir idx img_data w with
    | (w, Raise _) => (w, Ok doc)
    | (w, Ok pil_img) =>
        let '(width, height) := size pil_img in
        if new_page_raises idx width height then (w, Ok doc)
        else
          let doc := new_page doc width height in
          if insert_image_raises idx pil_img then (w, Ok doc)
          else
            let doc := insert_image doc pil_img in
            let temp_img := "temp_img_" +:+ pretty idx +:+ ".jpg" in
            match Os.remove temp_dir temp_img w with
            | (w, _) => (w, Ok doc)
            end
    end.

Fixpoint add_images (temp_dir : string)
  (images : list (nat * list Byte.byte)) (doc : document) : M document :=
  match images with
  | [] => ret doc
  | (idx, img_data) :: rest =>
      let! doc := add_image temp_dir idx img_data doc in
      add_images temp_dir rest doc
  end.

(** [f"{title.replace(' ', '_')}.pdf"] *)
Definition pdf_name (title : string) : string :=
  replace_char " " "_" title +:+ ".pdf".

(** Lines 40-94, once [temp_dir] exists. *)
Definition build_pdf (temp_dir : string) (images : list (list Byte.byte))
  (title : string) : M (string * string) :=
  let pdf_path := Os.join temp_dir (pdf_name title) in
  lift (raises_if fitz_open_raises (OSError "fitz.open")) ;;
  let doc : document := [] in
  let! doc := add_images temp_dir (enumerate images) doc in
  lift (raises_if (set_metadata_raises doc) (ValueError "set_metadata")) ;;
  lift (raises_if (doc_save_raises doc pdf_path) (ValueError "save")) ;;
  Os.write_file temp_dir (pdf_name title) ;;
  lift (raises_if (doc_close_raises doc) (ValueError "close")) ;;
  ret (pdf_path, temp_dir).

(** [(pdf_path, temp_dir)], or [None] for [(None, None)]. The handler's
    own [shutil.rmtree] is not protected: its exception leaves the
    function. *)
Definition create_pdf_from_images (images : list (list Byte.byte))
  (title : string) : M (option (string * string)) :=
  fun w =>
    match Os.mkdtemp "manhwa_pdf_" w with
    | (w, Raise _) => (w, Ok None)
    | (w, Ok temp_dir) =>
        match build_pdf temp_dir images title w with
        | (w, Ok r) => (w, Ok (Some r))
        | (w, Raise _) => (Os.rmtree temp_dir ;; ret None) w
        end
    end.

End WithImaging.
End PdfViewer.

(** ** utils/browser.py *)

Module Browser.
Section WithSystem.
Context `{Sys : System}.
Local Open Scope world_scope.

(** [[f for f in entries if f.endswith('.pdf')]] *)
Definition pdf_files (entries : list string) : list string :=
  filter (fun f => endswith ".pdf" f = true) entries.

Fixpoint for_each {A} (l : list A) (body : A -> M unit) : M unit :=
  match l with
  | [] => ret tt
  | x :: rest => body x ;; for_each rest body
  end.

(** [l.remove(x)]: the first occurrence goes. *)
Fixpoint remove_first (x : string) (l : list string) : list string :=
  match l with
  | [] => []
  | y :: rest => if String.eqb x y then rest else y :: remove_first x rest
  end.

(** Lines 207-214: [kill] for every non-empty line of [lsof -t]. *)
Definition kill_all (pids : list string) : M unit :=
  for_each pids (fun pid =>
    if truthy pid then
      try_catch
        (let! now := tick in
         let! _ := lift (subprocess_run now ["kill"; pid]) in
         ret tt)
        (fun _ => ret tt)
    else ret tt).

(** Lines 190-216: on macOS the processes [lsof] reports on a PDF of the
    directory are asked to terminate; whatever goes wrong with one file is
    ignored. *)
Definition close_pdf_users (temp_dir : string) : M unit :=
  if String.eqb platform_system "Darwin" then
    let! entries := Os.listdir temp_dir in
    for_each (pdf_files entries) (fun pdf_file =>
      let pdf_path := Os.join temp_dir pdf_file in
      try_catch
        (let! now := tick in
         let! stdout := lift (subprocess_run now ["lsof"; "-t"; pdf_path]) in
         if truthy (strip stdout)
         then kill_all (split_lines (strip stdout))
         else ret tt)
        (fun _ => ret tt))
  else ret tt.

(** The body of the loop of lines 187-225. *)
Definition cleanup_temp_dir (temp_dir : string) : M unit :=
  let! present := Os.exists_ temp_dir in
  if present : bool then
    try_catch
      (close_pdf_users temp_dir ;; Os.rmtree temp_dir)
      (fun _ => ret tt)
  else ret tt.

Definition cleanup_all_temp_dirs : M unit :=
  let! w := get_world in
  if bool_decide (temp_directories w = []) then ret tt
  else
    for_each (temp_directories w) cleanup_temp_dir ;;
    set_temp_directories [].

(** [signal_handler]: the cleanup, then [sys.exit(0)], which runs the
    [atexit] handler, the same cleanup. *)
Definition signal_handler : M unit :=
  cleanup_all_temp_dirs ;; cleanup_all_temp_dirs.

(** Lines 123-134: can every PDF of the directory be opened for
    appending? *)
Fixpoint can_delete (temp_dir : string) (pdfs : list string) : M bool :=
  match pdfs with
  | [] => ret true
  | pdf_file :: rest =>
      let! now := tick in
      if open_denied now (Os.join temp_dir pdf_file) then ret false
      else can_delete temp_dir rest
  end.

(** The [while True] loop of lines 111-140, for at most [fuel] rounds:
    [true] when the loop is left, [false] when the rounds are used up. *)
Fixpoint wait_for_viewer (fuel : nat) (temp_dir : string) : M bool :=
  match fuel with
  | O => ret false
  | S fuel =>
      let! present := Os.exists_ temp_dir in
      if negb present then ret true
      else
        let! entries := Os.listdir temp_dir in
        if bool_decide (pdf_files entries = []) then ret true
        else
          let! free := can_delete temp_dir (pdf_files entries) in
          if free : bool then ret true
          else wait_for_viewer fuel temp_dir
  end.

(** How a cleanup thread ends: done, or it has started another thread for
    the same directory and returned. *)
Inductive outcome := Finished | Rescheduled.

(** Lines 148-160: on macOS, is some PDF of the directory reported by
    [lsof]? *)
Fixpoint still_in_use (temp_dir : string) (pdfs : list string) : M bool :=
  match pdfs with
  | [] => ret false
  | pdf_file :: rest =>
      let! now := tick in
      let! stdout :=
        lift (subprocess_run now ["lsof"; Os.join temp_dir pdf_file]) in
      if truthy (strip stdout) then ret true
      else still_in_use temp_dir rest
  end.

(** Lines 142-170: the reclaim proper. *)
Definition reclaim (temp_dir : string) : M outcome :=
  let! present := Os.exists_ temp_dir in
  if present : bool then
    try_catch
      (let! busy :=
         (if String.eqb platform_system "Darwin" then
            let! entries := Os.listdir temp_dir in
            still_in_use temp_dir (pdf_files entries)
          else ret false) in
       if busy : bool then ret Rescheduled
       else
         Os.rmtree temp_dir ;;
         let! w := get_world in
         (if bool_decide (temp_dir ∈ temp_directories w)
          then set_temp_directories
                 (remove_first temp_dir (temp_directories w))
          else ret tt) ;;
         ret Finished)
      (fun _ => ret Finished)
  else ret Finished.

(** [_cleanup_when_viewer_closes(temp_dir)], its polling loop bounded by
    [fuel]: [None] when the loop has not been left by then. *)
Definition cleanup_when_viewer_closes (fuel : nat) (temp_dir : string)
  : M (option outcome) :=
  try_catch
    (let! left := wait_for_viewer fuel temp_dir in
     if left : bool then
       let! o := reclaim temp_dir in ret (Some o)
     else ret None)
    (fun _ => ret (Some Finished)).

(** What can happen to the temporary directories while the program runs
    and when it ends. *)
Inductive event :=
| AtExit                                  (* [cleanup_all_temp_dirs] *)
| Signal                                  (* [signal_handler] *)
| ViewerThread (fuel : nat) (temp_dir : string)
| DeletedExternally (path : string).

Definition happen (w : world) (ev : event) : world :=
  match ev with
  | AtExit => (cleanup_all_temp_dirs w).1
  | Signal => (signal_handler w).1
  | ViewerThread fuel temp_dir =>
      (cleanup_when_viewer_closes fuel temp_dir w).1
  | DeletedExternally path => (set_fs (delete path (fs w)) w).1
  end.

End WithSystem.
End Browser.

(** ** utils/viewer.py *)

Module Viewer.

(** The state of a [ManhwaViewer] that outlives a redraw. [destroyed]
    tells whether [root.destroy()] has been called on its window. *)
Record ManhwaViewer := {
  title : string;
  images : list (list Byte.byte);
  zoom_level : float;
  zoom_step : float;
  min_zoom : float;
  max_zoom : float;
  temp_dir : string;
  is_fullscreen : bool;
  destroyed : bool
}.

(** The fields [__init__] sets, the temporary directory being made. *)
Definition new_viewer (title : string) (images : list (list Byte.byte))
  (temp_dir : string) : ManhwaViewer :=
  {| title := title; images := images;
     zoom_level := 1.0%float;
     zoom_step := 0x1.999999999999ap-4%float;   (* 0.1 *)
     min_zoom := 0.5%float;
     max_zoom := 2.0%float;
     temp_dir := temp_dir;
     is_fullscreen := false;
     destroyed := false |}.













Section WithSystem.
Context `{Sys : System}.
Local Open Scope world_scope.

(** [ManhwaViewer.__init__] *)
Definition init (title : string) (images : list (list Byte.byte))
  : M ManhwaViewer :=
  let! temp_dir := Os.mkdtemp "manhwa_viewer_" in
  ret (new_viewer title images temp_dir).




End WithSystem.
End Viewer.

(** ** Opening a chapter: the rest of utils/pdf_viewer.py and
    utils/browser.py *)

Module Desktop.

(** The desktop of the machine, as far as the program hands work to it. *)
Class Launcher := {
  (** [os.startfile(path)] *)
  startfile : string -> result unit;
  (** [webbrowser.open(url)] *)
  webbrowser_open : nat -> string -> result bool;
  (** writing the marker file into the directory raises *)
  marker_raises : string -> bool
}.

End Desktop.

Import Desktop.

Module Opening.
Section WithDesktop.
Context `{Net : Scraper.Network} `{Sys : System}
        `{Img : PdfViewer.Imaging} `{Lnch : Launcher}.
Local Open Scope world_scope.

(** [subprocess.run(args, check=True)] *)
Definition run_checked (args : list string) : M unit :=
  let! now := tick in
  let! _ := lift (subprocess_run now args) in
  ret tt.

(** [open_pdf_with_system_viewer] *)
Definition open_pdf_with_system_viewer (pdf_path : string) : M bool :=
  try_catch
    ((if String.eqb platform_system "Darwin"
      then run_checked ["open"; pdf_path]
      else if String.eqb platform_system "Linux"
      then run_checked ["xdg-open"; pdf_path]
      else lift (startfile pdf_path)) ;;
     ret true)
    (fun _ => ret false).

(** Lines 147-155 of pdf_viewer.py: the marker file, best effort. *)
Definition write_marker (temp_dir : string) : M unit :=
  try_catch
    (lift (PdfViewer.raises_if (marker_raises temp_dir)
             (OSError "cannot write marker")) ;;
     Os.write_file temp_dir ".manhwa_cli_marker")
    (fun _ => ret tt).

(** [view_manhwa_as_pdf]: [(True, temp_dir)] or [(False, None)]. *)
Definition view_manhwa_as_pdf (images : list (list Byte.byte))
  (title : string) : M (bool * option string) :=
  let! created := PdfViewer.create_pdf_from_images images title in
  let temp_dir := snd <$> created in
  let! success :=
    match created with
    | Some (pdf_path, temp_dir) =>
        if truthy pdf_path then
          (if truthy temp_dir then write_marker temp_dir else ret tt) ;;
          open_pdf_with_system_viewer pdf_path
        else ret false
    | None => ret false
    end in
  if success : bool then ret (true, temp_dir)
  else
    match temp_dir with
    | Some temp_dir =>
        if truthy temp_dir then
          let! present := Os.exists_ temp_dir in
          if present : bool then Os.rmtree temp_dir else ret tt
        else ret tt
    | None => ret tt
    end ;;
    ret (false, None).

(** [temp_directories.append(temp_dir)] *)
Definition register (temp_dir : string) : M unit :=
  let! w := get_world in
  set_temp_directories (temp_directories w ++ [temp_dir]).

(** Lines 73-85 of browser.py: the URL goes to the browser. *)
Definition open_in_browser (url : string) : M unit :=
  if String.eqb platform_system "Darwin" then run_checked ["open"; url]
  else if String.eqb platform_system "Linux"
  then run_checked ["xdg-open"; url]
  else
    let! now := tick in
    let! _ := lift (webbrowser_open now url) in
    ret tt.

(** [open_chapter]. The thread it starts for a registered directory is
    the event [Browser.ViewerThread], which happens later. *)
Definition open_chapter (url title : string) : M bool :=
  try_catch
    (let images := Scraper.download_chapter_images url title in
     let! viewed :=
       match images with
       | Some ((_ :: _) as images) =>
           let! r := view_manhwa_as_pdf images title in
           let '(success, temp_dir) := r in
           if success : bool then
             match temp_dir with
             | Some temp_dir =>
                 if truthy temp_dir then register temp_dir else ret tt
             | None => ret tt
             end ;;
             ret true
           else ret false
       | _ => ret false
       end in
     if viewed : bool then ret true
     else open_in_browser url ;; ret true)
    (fun _ =>
       try_catch
         (let! now := tick in
          let! _ := lift (webbrowser_open now url) in
          ret true)
         (fun _ => ret false)).

End WithDesktop.
End Opening.

(** ** The rest of utils/viewer.py: its own download, and the session *)

Module ViewerApp.
Section WithNetwork.
Context `{Net : Scraper.Network} `{Sys : System}.
Local Open Scope world_scope.

Definition image_headers (chapter_url : string) : attrs := [
  ("Referer", chapter_url);
  ("User-Agent",
   "Mozilla/5.0 (Windows NT 10.0; Win64; x64) AppleWebKit/537.36 (KHTML, like Gecko) Chrome/91.0.4472.124 Safari/537.36")
].

(** The [try] body of lines 475-486 for one image. *)
Definition fetch_image (chapter_url : string) (i : nat) (img_url : string)
  : result (list Byte.byte) :=
  bind (Scraper.scraper_get_image i img_url (image_headers chapter_url))
       (fun img_response =>
  bind (Scraper.raise_for_status img_response) (fun _ =>
  Ok (Scraper.content img_response))).

(** The loop of lines 474-489. *)
Fixpoint download_loop (chapter_url : string)
  (image_urls : list (nat * string)) (images : list (list Byte.byte))
  : list (list Byte.byte) :=
  match image_urls with
  | [] => images
  | (i, img_url) :: rest =>
      let images :=
        try_except
          (bind (fetch_image chapter_url i img_url) (fun content =>
           Ok (images ++ [content])))
          (fun _ => images) in
      download_loop chapter_url rest images
  end.

(** viewer.py's own [download_chapter_images]; lines 433-467 are, word for
    word, the extraction [Scraper.image_urls_of] embeds. *)
Definition download_chapter_images (chapter_url chapter_title : string)
  : option (list (list Byte.byte)) :=
  let images := [] in
  try_except
    (bind (Scraper.scraper_get chapter_url) (fun response =>
     bind (Scraper.raise_for_status response) (fun _ =>
     let image_urls := Scraper.image_urls_of (Scraper.soup response) in
     let images :=
       download_loop chapter_url (enumerate image_urls) images in
     if bool_decide (images = []) then Ok None else Ok (Some images))))
    (fun _ => None).

(** [open_chapter_in_viewer]. [mainloop] is what happens between
    [viewer.start()] and its return: the user's session. *)
Definition open_chapter_in_viewer
  (mainloop : Viewer.ManhwaViewer -> M unit)
  (chapter_url chapter_title : string) : M bool :=
  try_catch
    (match download_chapter_images chapter_url chapter_title with
     | None | Some [] => ret false
     | Some images =>
         let! viewer := Viewer.init chapter_title images in
         mainloop viewer ;;
         ret true
     end)
    (fun _ => ret false).

End WithNetwork.
End ViewerApp.

(** ** utils/display.py *)

Module Display.

(** What the user does at a prompt. *)
Inductive key (A : Type) :=
| Typed (a : A)
| Interrupt.                     (* KeyboardInterrupt *)
Arguments Typed {A} a.
Arguments Interrupt {A}.

(** How a prompt loop ends. [Waiting]: the keys given are used up and the
    prompt is still open. *)
Inductive selection :=
| Selected (idx : nat)
| Cancelled
| Waiting.

(** *** display_search_results *)




(** *** display_chapters *)

Definition chapters_per_page : nat := 20.

Definition total_pages (chapters : list Chapter.t) : nat :=
  (length chapters + chapters_per_page - 1) / chapters_per_page.

(** [chapters[start_idx:end_idx]] for the page shown. *)
Definition page_chapters (chapters : list Chapter.t) (current_page : nat)
  : list Chapter.t :=
  let start_idx := (current_page - 1) * chapters_per_page in
  let end_idx := (start_idx + chapters_per_page) `min` length chapters in
  take (end_idx - start_idx) (drop start_idx chapters).

Section WithInt.
(** [int(s)]: the integer, or [None] for [ValueError]. *)
Variable int : string -> option Z.

(** The [while True] loop of [display_chapters], from [current_page] on.
    Returns the pages printed and the selection. *)
Fixpoint chapters_loop (chapters : list Chapter.t) (current_page : nat)
  (keys : list (key string)) : list (list Chapter.t) * selection :=
  let page := page_chapters chapters current_page in
  match keys with
  | [] => ([page], Waiting)
  | Interrupt :: _ => ([page], Cancelled)
  | Typed line :: keys =>
      let selection := lower (strip line) in
      let again (current_page : nat) :=
        let '(pages, r) := chapters_loop chapters current_page keys in
        (page :: pages, r) in
      if String.eqb selection "0" then ([page], Cancelled)
      else if String.eqb selection "p" && (1 <? current_page)%nat
      then again (current_page - 1)
      else if String.eqb selection "n"
              && (current_page <? total_pages chapters)%nat
      then again (current_page + 1)
      else
        match int selection with
        | Some n =>
            let chapter_idx := (n - 1)%Z in
            if (0 <=? chapter_idx)%Z
               && (chapter_idx <? Z.of_nat (length chapters))%Z
            then ([page], Selected (Z.to_nat chapter_idx))
            else again current_page
        | None => again current_page
        end
  end.

Definition display_chapters (chapters : list Chapter.t)
  (keys : list (key string)) : list (list Chapter.t) * selection :=
  chapters_loop chapters 1 keys.

End WithInt.

End Display.

(** ** Notions the properties below are stated with *)

Module Notions.
Import Scraper.

(** The title an item of a result page is listed under, if it has one. *)
Definition item_title (item : element) : option string :=
  (fun title_el => strip (text title_el)) <$> select_one sel_title item.

(** The target of the item's title link. *)
Definition item_url (item : element) : option string :=
  match select_one sel_title item with
  | Some title_el => get title_el "href"
  | None => None
  end.

(** A request that brings no result page: it raises, or its status is
    not 200. *)
Definition no_page (r : result response) : Prop :=
  match r with
  | Raise _ => True
  | Ok response => status_code response <> 200%Z
  end.

(** A request [raise_for_status] lets through. *)
Definition page_of (r : result response) : option response :=
  match r with
  | Ok response =>
      if (400 <=? status_code response)%Z && (status_code response <? 600)%Z
      then None else Some response
  | Raise _ => None
  end.


(** The first hyperlink of the entry has no target. *)
Definition dangling (item : element) : Prop :=
  exists link, select_one sel_a item = Some link /\ get link "href" = None.

(** The source an image element is fetched from: its [data-src] when it
    has a non-empty one, else its [data-lazy-src], else its [src]. *)
Definition preferred_source (img : element) : string :=
  match get img "data-src" with
  | Some (String c s) => String c s
  | _ =>
      match get img "data-lazy-src" with
      | Some (String c s) => String c s
      | _ => default "" (get img "src")
      end
  end.

(** One of the tokens the page-wide image scan looks for. *)
Definition has_content_token (img_url : string) : Prop :=
  contains "chapter" img_url = true \/ contains "manga" img_url = true
  \/ contains "comic" img_url = true.

(** A property of the directories that exist, of the registry and of
    the log of removals. *)
Definition state_property : Type :=
  gmap string (list string) -> list string -> list string -> Prop.

(** [c] maintains [J], whether it returns or raises. *)
Definition maintains {A} (J : state_property) (c : M A) : Prop :=
  forall w,
    J (fs w) (temp_directories w) (removed w) ->
    J (fs (c w).1) (temp_directories (c w).1) (removed (c w).1).

(** Nothing has changed since [(f0, l0, r0)] but the entries of the
    directory [d]. *)
Definition inside (d : string) (f0 : gmap string (list string))
  (l0 r0 : list string) : state_property :=
  fun f l r => (exists entries, f = <[d := entries]> f0) /\ l = l0 /\ r = r0.

(** As [inside], and the directory [d] holds the entry [name]. *)
Definition holding (d name : string) (f0 : gmap string (list string))
  (l0 r0 : list string) : state_property :=
  fun f l r =>
    (exists entries, f = <[d := entries]> f0 /\ name ∈ entries)
    /\ l = l0 /\ r = r0.

(** Nothing has changed since [(f0, l0, r0)]. *)
Definition unchanged (f0 : gmap string (list string)) (l0 r0 : list string)
  : state_property :=
  fun f l r => f = f0 /\ l = l0 /\ r = r0.

End Notions.

(** ** Fixtures: a small web site, a file system and an imaging library to
    run the code on *)

Module Fixtures.
Import Scraper PdfViewer.

Definition a_link (href text : string) : node :=
  Tag "a" [("href", href)] [NavigableString text].

Definition page (status : Z) (top : list node) : response :=
  {| status_code := status; soup := BeautifulSoup top; content := [] |}.

(** A chapter list, newest first, every entry with its link. *)
Definition chapters_markup : list node := [
  Tag "ul" [("class", "main version-chap")] [
    Tag "li" [("class", "wp-manga-chapter")] [
      a_link "https://toonily.com/serie/complete/chapter-2/" " Chapter 2 ";
      Tag "span" [("class", "chapter-release-date")]
          [NavigableString "Jan 2, 2024"] ];
    Tag "li" [("class", "wp-manga-chapter")] [
      a_link "https://toonily.com/serie/complete/chapter-1/" "Chapter 1" ] ] ].

(** The same list, the older entry announced without a link. *)
Definition unlinked_markup : list node := [
  Tag "ul" [("class", "main version-chap")] [
    Tag "li" [("class", "wp-manga-chapter")] [
      a_link "https://toonily.com/serie/unlinked/chapter-2/" "Chapter 2" ];
    Tag "li" [("class", "wp-manga-chapter")] [
      NavigableString "Chapter 1 (coming back soon)" ] ] ].

(** A page without any chapter structure, only hyperlinks. *)
Definition links_markup : list node := [
  Tag "p" [] [
    a_link "https://toonily.com/serie/links/chapter-2/" "Two";
    a_link "https://toonily.com/about/" "About us";
    a_link "https://toonily.com/serie/links/chapter-1/" "One" ] ].

(** A chapter page: a reader container with three images, and a
    reading-mode link. *)
Definition reader_markup : list node := [
  Tag "div" [("class", "reading-content")] [
    Tag "img" [("data-src", "https://cdn.toonily.com/chapter/1.jpg")] [];
    Tag "img" [("src", "https://cdn.toonily.com/chapter/2.jpg")] [];
    Tag "img" [("data-lazy-src", "https://cdn.toonily.com/chapter/3.jpg");
               ("src", "https://toonily.com/placeholder.gif")] [] ];
  Tag "a" [("class", "btn reading-mode");
           ("href", "https://toonily.com/reader/complete/1/")]
      [NavigableString "Reading mode"] ].

(** A chapter page with a reading-mode link and no reader container. *)
Definition bare_markup : list node := [
  Tag "a" [("class", "reading-mode");
           ("href", "https://toonily.com/reader/bare/1/")]
      [NavigableString "Reading mode"] ].

Definition manga_item (href title : string) : node :=
  Tag "div" [("class", "page-item-detail manga")] [
    Tag "div" [("class", "post-title")] [
      Tag "h3" [] [a_link href title] ] ].

(** A search page: three items, two of them under the same title. *)
Definition search_markup : list node := [
  Tag "div" [("class", "page-listing-item")] [
    manga_item "https://toonily.com/serie/solo-leveling/" "Solo Leveling";
    manga_item "https://toonily.com/serie/solo-leveling-2/" "Solo Leveling";
    manga_item "https://toonily.com/serie/solo-max/" "Solo Max-Level Newbie"
  ] ].

Definition complete_url : string := "https://toonily.com/serie/complete/".
Definition unlinked_url : string := "https://toonily.com/serie/unlinked/".
Definition links_url : string := "https://toonily.com/serie/links/".
Definition reader_url : string :=
  "https://toonily.com/serie/complete/chapter-1/".
Definition bare_url : string := "https://toonily.com/serie/bare/chapter-1/".

Definition site : list (string * response) := [
  (complete_url, page 200 chapters_markup);
  (unlinked_url, page 200 unlinked_markup);
  (links_url, page 200 links_markup);
  (reader_url, page 200 reader_markup);
  (bare_url, page 200 bare_markup);
  ("https://toonily.com/search/solo+leveling", page 200 search_markup)
].

Definition image_bytes (img_url : string) : list Byte.byte :=
  if String.eqb img_url "https://cdn.toonily.com/chapter/1.jpg"
  then [Byte.x01]
  else [Byte.x03].

(** The site answers the known pages; the second image of the chapter is
    missing, and images are refused without the chapter as referer. *)
#[export] Instance network : Network := {|
  quote_plus := replace_char " " "+";
  scraper_get url :=
    match filter (fun '(u, _) => u = url) site with
    | (_, r) :: _ => Ok r
    | [] => Raise (OSError "connection error")
    end;
  scraper_get_image i img_url headers :=
    if bool_decide (lookup_attr "Referer" headers = Some reader_url) then
      if String.eqb img_url "https://cdn.toonily.com/chapter/2.jpg"
      then Ok {| status_code := 404; soup := BeautifulSoup [];
                 content := [] |}
      else Ok {| status_code := 200; soup := BeautifulSoup [];
                 content := image_bytes img_url |}
    else Raise (OSError "connection reset");
  scraper_post _ _ := Raise (OSError "connection error")
|}.

(** A Linux machine where nothing holds files open and removals work. *)
#[export] Instance system : System := {|
  platform_system := "Linux";
  mkdtemp_pick prefix w := Ok ("/tmp/" +:+ prefix +:+ pretty (clock w));
  rmtree_denied _ _ := false;
  open_denied _ _ := false;
  subprocess_run _ _ := Ok ""
|}.

(** Three images of distinct dimensions, the second with an alpha
    channel; anything else does not decode. *)
Definition decode (img_data : list Byte.byte) : result pil_image :=
  match img_data with
  | [Byte.x01] => Ok {| mode := "RGB"; size := (800, 1200)%Z |}
  | [Byte.x02] => Ok {| mode := "RGBA"; size := (720, 3000)%Z |}
  | [Byte.x03] => Ok {| mode := "L"; size := (640, 480)%Z |}
  | _ => Raise (OSError "cannot identify image file")
  end.

(** PyMuPDF refuses to save a document without pages; nothing else
    fails. *)
#[export] Instance imaging : Imaging := {|
  Image_open := decode;
  save_raises _ _ := false;
  new_page_raises _ _ _ := false;
  insert_image_raises _ _ := false;
  fitz_open_raises := false;
  set_metadata_raises _ := false;
  doc_save_raises doc _ := bool_decide (doc = []);
  doc_close_raises _ := false
|}.



(** A world with one empty temporary directory. *)
Definition scratch_world : world :=
  {| fs := {[ "/tmp/manhwa_pdf_0" := [] ]}; temp_directories := [];
     clock := 0; removed := [] |}.

(** A world with two registered directories, one of them gone already. *)
Definition registered_world : world :=
  {| fs := {[ "/tmp/manhwa_pdf_0" := ["Chapter_1.pdf"] ]};
     temp_directories := ["/tmp/manhwa_pdf_0"; "/tmp/manhwa_pdf_1"];
     clock := 0; removed := [] |}.

End Fixtures.

(** ** Further scenarios *)

Module Scenarios.
Import Scraper PdfViewer Fixtures.

(** A chapter list whose older entry has a hyperlink without target. *)
Definition stale_markup : list node := [
  Tag "ul" [("class", "main version-chap")] [
    Tag "li" [("class", "wp-manga-chapter")] [
      a_link "https://toonily.com/serie/stale/chapter-2/" "Chapter 2" ];
    Tag "li" [("class", "wp-manga-chapter")] [
      Tag "a" [("name", "chapter-1")] [NavigableString "Chapter 1"] ] ] ].

(** Hyperlinks only, one of them a chapter link without target. *)
Definition stale_links_markup : list node := [
  Tag "p" [] [
    a_link "https://toonily.com/serie/stale-links/chapter-2/" "Two";
    Tag "a" [("name", "chapter-1")] [NavigableString "Chapter 1"] ] ].

Definition stale_url : string := "https://toonily.com/serie/stale/".
Definition stale_links_url : string :=
  "https://toonily.com/serie/stale-links/".

Definition stale_site : list (string * response) := [
  (stale_url, page 200 stale_markup);
  (stale_links_url, page 200 stale_links_markup)
].

(** A site with these two pages and nothing else. *)
Definition stale_network : Network := {|
  quote_plus := replace_char " " "+";
  scraper_get url :=
    match filter (fun '(u, _) => u = url) stale_site with
    | (_, r) :: _ => Ok r
    | [] => Raise (OSError "connection error")
    end;
  scraper_get_image _ _ _ := Raise (OSError "connection error");
  scraper_post _ _ := Raise (OSError "connection error")
|}.

(** A desktop where everything opens. *)
#[export] Instance launcher : Launcher := {|
  startfile _ := Ok tt;
  webbrowser_open _ _ := Ok true;
  marker_raises _ := false
|}.

(** A Windows machine whose PDF viewer never lets go of a file. *)
Definition system_busy : System := {|
  platform_system := "Windows";
  mkdtemp_pick prefix w := Ok ("C:/Temp/" +:+ prefix +:+ pretty (clock w));
  rmtree_denied _ _ := false;
  open_denied _ _ := true;
  subprocess_run _ _ := Ok ""
|}.

End Scenarios.

(** * Properties of scraper.py *)

Section ScraperProperties.
Import Scraper.
Context `{Net : Network}.

(** ** Search results carry pairwise distinct titles *)

Lemma seen_true results t :
  seen results t = true <-> t ∈ SearchResult.title <$> results.
Proof.
  unfold seen, any. induction results as [|r results IH]; simpl.
  - split; [discriminate | intros Hin; inversion Hin].
  - rewrite orb_true_iff, IH, String.eqb_eq, elem_of_cons.
    split; intros [?|?]; auto.
Qed.

Lemma seen_false results t :
  seen results t = false <-> t ∉ SearchResult.title <$> results.
Proof.
  rewrite <- seen_true. destruct (seen results t); split; congruence.
Qed.

Lemma snoc_distinct results r :
  NoDup (SearchResult.title <$> results) ->
  seen results (SearchResult.title r) = false ->
  NoDup (SearchResult.title <$> results ++ [r]).
Proof.
  intros Hnd Hseen. apply seen_false in Hseen.
  rewrite fmap_app. apply NoDup_app. split; [done|]. split.
  - simpl. intros t Ht Hin. apply list_elem_of_singleton in Hin. by subst.
  - simpl. apply NoDup_singleton.
Qed.

(** Each of the two loop bodies appends at most one record, and only one
    whose title is not among the accumulated ones. *)
Lemma add_container_item_appends results item :
  add_container_item results item = results
  \/ exists r, add_container_item results item = results ++ [r]
               /\ seen results (SearchResult.title r) = false.
Proof.
  unfold add_container_item.
  destruct (select_one sel_title item) as [title_el|]; [|by left].
  destruct (seen results (strip (text title_el))) eqn:Hseen; simpl.
  - by left.
  - right. eexists. split; [reflexivity|]. done.
Qed.

Lemma add_item_appends results item :
  add_item results item = results
  \/ exists r, add_item results item = results ++ [r]
               /\ seen results (SearchResult.title r) = false.
Proof.
  unfold add_item.
  destruct (select_one sel_title item) as [title_el|]; [|by left].
  destruct (seen results (strip (text title_el))) eqn:Hseen; simpl.
  - by left.
  - right. eexists. split; [reflexivity|]. done.
Qed.

Lemma add_container_item_distinct results item :
  NoDup (SearchResult.title <$> results) ->
  NoDup (SearchResult.title <$> add_container_item results item).
Proof.
  intros Hnd.
  destruct (add_container_item_appends results item) as [->|(r & -> & Hr)];
    [done | by apply snoc_distinct].
Qed.

Lemma add_item_distinct results item :
  NoDup (SearchResult.title <$> results) ->
  NoDup (SearchResult.title <$> add_item results item).
Proof.
  intros Hnd.
  destruct (add_item_appends results item) as [->|(r & -> & Hr)];
    [done | by apply snoc_distinct].
Qed.

Lemma foldl_preserves {A B} (P : A -> Prop) (f : A -> B -> A) l a :
  (forall a x, P a -> P (f a x)) -> P a -> P (foldl f a l).
Proof.
  intros Hstep. revert a. induction l as [|x l IH]; simpl; auto.
Qed.

Lemma search_direct_distinct query :
  NoDup (SearchResult.title <$> search_direct query).
Proof.
  unfold search_direct.
  pose proof (NoDup_nil_2 (A := string)) as Hnil.
  destruct (scraper_get (search_url query)) as [response|]; [|done].
  destruct (status_code response =? 200)%Z; [|done].
  set (results := match select_one sel_result_container (soup response)
                  with Some c => _ | None => _ end).
  assert (NoDup (SearchResult.title <$> results)) as Hres.
  { subst results.
    destruct (select_one sel_result_container (soup response)).
    - apply (foldl_preserves (fun l => NoDup (SearchResult.title <$> l)));
        [apply add_container_item_distinct | done].
    - apply (foldl_preserves (fun l => NoDup (SearchResult.title <$> l)));
        [apply add_item_distinct | done]. }
  case_bool_decide; [|done].
  destruct (scraper_get (alt_search_url query)) as [alt_response|]; [|done].
  destruct (status_code alt_response =? 200)%Z; [|done].
  apply (foldl_preserves (fun l => NoDup (SearchResult.title <$> l)));
    [apply add_item_distinct | done].
Qed.

Lemma search_api_distinct query results :
  NoDup (SearchResult.title <$> results) ->
  NoDup (SearchResult.title <$> search_api query results).
Proof.
  intros Hnd. unfold search_api.
  case_bool_decide; [|done].
  destruct (scraper_post _ _) as [api_response|]; [|done].
  destruct (status_code api_response =? 200)%Z; [|done].
  apply (foldl_preserves (fun l => NoDup (SearchResult.title <$> l)));
    [apply add_item_distinct | done].
Qed.

Lemma slice_to_sublist {A} (l : list A) n : slice_to l n `sublist_of` l.
Proof. unfold slice_to. destruct (0 <=? n)%Z; apply sublist_take. Qed.

(** C6. Whatever the site answers on the search page, the alternate
    search URL and the AJAX endpoint, and whatever the limit, no two
    records returned by [search_manhwa] have the same title. *)
Theorem search_manhwa_distinct_titles query limit :
  NoDup (SearchResult.title <$> search_manhwa query limit).
Proof.
  unfold search_manhwa.
  case_bool_decide; [apply NoDup_nil_2|].
  eapply sublist_NoDup;
    [|apply fmap_sublist, slice_to_sublist].
  apply search_api_distinct, search_direct_distinct.
Qed.

(** ** The limit *)

(** C10. For a non-negative limit, [search_manhwa] returns the first
    [limit] of the accumulated records, in accumulation order, hence at
    most [limit] of them. *)
Theorem search_manhwa_limit query (limit : Z) :
  (0 <= limit)%Z ->
  search_manhwa query limit
  = take (Z.to_nat limit) (search_accumulated query)
  /\ (Z.of_nat (length (search_manhwa query limit)) <= limit)%Z.
Proof.
  intros Hlimit.
  assert (search_manhwa query limit
          = take (Z.to_nat limit) (search_accumulated query)) as ->.
  { unfold search_manhwa, slice_to.
    case_bool_decide as Hnil.
    - by rewrite Hnil, take_nil.
    - by rewrite (proj2 (Z.leb_le 0 limit) Hlimit). }
  split; [done|]. rewrite length_take. lia.
Qed.

(** ** Image downloads fail one by one *)

Lemma download_loop_fetched chapter_url image_urls images :
  download_loop chapter_url image_urls images
  = images ++ omap (fun '(i, img_url) => fetched chapter_url i img_url)
                   image_urls.
Proof.
  revert images.
  induction image_urls as [|[i img_url] rest IH]; intros images; simpl.
  - by rewrite app_nil_r.
  - rewrite IH. unfold fetched.
    destruct (fetch_image chapter_url i img_url) as [content|e]; simpl.
    + by rewrite <- app_assoc.
    + done.
Qed.

(** C1. Once the chapter page is fetched and yields at least one image
    URL, the images are fetched one by one: the call returns the payloads
    of exactly the downloads that succeed, in the order of their URLs,
    whichever of the others fail, and it returns the failure signal
    exactly when no download succeeds. *)
Theorem download_chapter_images_isolates_failures
  chapter_url chapter_title response :
  scraper_get chapter_url = Ok response ->
  raise_for_status response = Ok tt ->
  image_urls_of (soup response) <> [] ->
  let payloads :=
    omap (fun '(i, img_url) => fetched chapter_url i img_url)
         (enumerate (image_urls_of (soup response))) in
  (download_chapter_images chapter_url chapter_title = None
   <-> payloads = [])
  /\ (payloads <> [] ->
      download_chapter_images chapter_url chapter_title = Some payloads).
Proof.
  intros Hget Hstatus _ payloads.
  unfold download_chapter_images.
  rewrite Hget. simpl. rewrite Hstatus. simpl.
  rewrite download_loop_fetched. simpl. fold payloads.
  case_bool_decide as Hnil; simpl.
  - split; [done | intros Hne; by destruct Hne].
  - split; [split; [discriminate | intros; by destruct Hnil] | done].
Qed.

(** ** Chapter order *)

Lemma append_items_linked items chapters :
  Forall (fun '(_, item) => has_link item) items ->
  exists new,
    append_items items chapters = Ok (chapters ++ new)
    /\ Forall2 (fun chapter '(idx, item) =>
                  Chapter.index chapter = idx + 1
                  /\ lists_entry chapter item) new items.
Proof.
  revert chapters.
  induction items as [|[idx item] rest IH]; intros chapters Hall.
  - exists []. simpl. by rewrite app_nil_r.
  - apply Forall_cons in Hall as [(link & href & Hlink & Hhref) Hrest].
    cbn [append_items]. rewrite Hlink. unfold getitem. rewrite Hhref.
    cbn [bind].
    destruct (IH (chapters ++
      [ {| Chapter.index := idx + 1; Chapter.title := strip (text link);
           Chapter.url := href;
           Chapter.release_date := find_release_date date_selectors item
        |} ]) Hrest) as (new & -> & Hnew).
    eexists (_ :: new). rewrite <- app_assoc. split; [reflexivity|].
    constructor; [|done]. split; [done|].
    by exists link.
Qed.

Lemma append_links_targets links chapters :
  Forall (fun '(_, link) => is_Some (get link "href")) links ->
  exists new,
    append_links links chapters = Ok (chapters ++ new)
    /\ Forall2 (fun chapter '(idx, link) =>
                  Chapter.index chapter = idx + 1
                  /\ lists_link chapter link) new links.
Proof.
  revert chapters.
  induction links as [|[idx link] rest IH]; intros chapters Hall.
  - exists []. simpl. by rewrite app_nil_r.
  - apply Forall_cons in Hall as [[href Hhref] Hrest].
    simpl. unfold getitem. rewrite Hhref. simpl.
    destruct (IH (chapters ++
      [ {| Chapter.index := idx + 1; Chapter.title := strip (text link);
           Chapter.url := href; Chapter.release_date := "N/A" |} ]) Hrest)
      as (new & -> & Hnew).
    eexists (_ :: new). rewrite <- app_assoc. split; [reflexivity|].
    constructor; [|done]. by split.
Qed.

(** Records built along [enumerate l] are numbered from 1 and follow
    [l]. *)
Lemma enumerated_records {A} (R : Chapter.t -> A -> Prop) chapters
  (l : list A) start :
  Forall2 (fun chapter '(idx, x) =>
             Chapter.index chapter = idx + 1 /\ R chapter x)
          chapters (imap (fun i x => (start + i, x)) l) ->
  Chapter.index <$> chapters = seq (start + 1) (length l)
  /\ Forall2 R chapters l.
Proof.
  revert chapters start.
  induction l as [|x l IH]; intros chapters start Hall.
  - apply Forall2_nil_inv_r in Hall as ->. done.
  - rewrite imap_cons in Hall.
    apply Forall2_cons_inv_r in Hall
      as (chapter & rest & [Hidx HR] & Hrest & ->).
    destruct (IH rest (S start)) as [Hseq Hrel].
    { replace (imap (fun i y => (S start + i, y)) l)
        with (imap ((fun i y => (start + i, y)) ∘ S) l); [done|].
      apply imap_ext. intros i y _. simpl. f_equal. lia. }
    split; [|by constructor].
    rewrite fmap_cons, Hseq, Hidx. cbn [length seq].
    repeat (f_equal; try lia).
Qed.

Lemma enumerate_Forall {A} (P : A -> Prop) (l : list A) :
  Forall P l -> Forall (fun '(_, x) => P x) (enumerate l).
Proof.
  intros Hall. apply Forall_forall. intros [i x] Hin.
  apply elem_of_lookup_imap in Hin as (j & y & [= -> ->] & Hy).
  eapply Forall_lookup_1; eauto.
Qed.

(** C2, as the code has it. When the structural selectors match N entries
    and each entry holds a hyperlink with a target, [get_chapters] returns
    N records numbered 1..N that follow the entries in reversed document
    order; through the hyperlink fallback (no structural match, every
    chapter link with a target) the records are numbered from 1 and follow
    the links in document order. *)
Theorem get_chapters_order manhwa_url response :
  scraper_get manhwa_url = Ok response ->
  raise_for_status response = Ok tt ->
  let items := find_chapter_items chapter_selectors (soup response) in
  let links :=
    filter (fun link => is_chapter_link link = true)
           (select sel_a (soup response)) in
  let chapters := get_chapters manhwa_url in
  (items <> [] -> Forall has_link items ->
   Chapter.index <$> chapters = seq 1 (length items)
   /\ Forall2 lists_entry chapters (reverse items))
  /\ (items = [] -> Forall (fun link => is_Some (get link "href")) links ->
      Chapter.index <$> chapters = seq 1 (length links)
      /\ Forall2 lists_link chapters links).
Proof.
  intros Hget Hstatus items links chapters.
  assert (chapters = try_except (chapters_of_soup (soup response))
                                (fun _ => [])) as Hchapters.
  { unfold chapters, get_chapters. rewrite Hget. simpl.
    by rewrite Hstatus. }
  split.
  - intros Hne Hall.
    destruct (append_items_linked (enumerate (reverse items)) [])
      as (new & Hrun & Hnew).
    { apply enumerate_Forall. by apply Forall_reverse. }
    assert (chapters = new) as ->.
    { rewrite Hchapters. unfold chapters_of_soup. fold items.
      rewrite bool_decide_false by done. by rewrite Hrun. }
    apply (enumerated_records lists_entry new (reverse items) 0) in Hnew.
    by rewrite length_reverse in Hnew.
  - intros Hnil Hall.
    destruct (append_links_targets (enumerate links) [])
      as (new & Hrun & Hnew).
    { by apply enumerate_Forall. }
    assert (chapters = new) as ->.
    { rewrite Hchapters. unfold chapters_of_soup. fold items. fold links.
      rewrite bool_decide_true by done.
      case_bool_decide as Hlinks; simpl.
      - rewrite Hnil. simpl. rewrite Hlinks in Hrun. simpl in Hrun.
        by injection Hrun as <-.
      - by rewrite Hrun. }
    by apply (enumerated_records lists_link new links 0) in Hnew.
Qed.

(** ** Reader URL *)

(** C3, as the code has it. [get_chapter_url] echoes its argument when the
    request raises, when the status is not 200, when the page has no
    reader container, and when it has no reading-mode link (nor a link
    whose target contains "reader"); when the page has a reader container
    and such a link, it returns the link's target, if it has one. *)
Theorem get_chapter_url_resolution chapter_url :
  (forall e, scraper_get chapter_url = Raise e ->
             get_chapter_url chapter_url = chapter_url)
  /\ (forall response,
        scraper_get chapter_url = Ok response ->
        (status_code response <> 200%Z ->
         get_chapter_url chapter_url = chapter_url)
        /\ (status_code response = 200%Z ->
            (reader_container (soup response) = None ->
             get_chapter_url chapter_url = chapter_url)
            /\ (reader_link (soup response) = None ->
                get_chapter_url chapter_url = chapter_url)
            /\ (forall link,
                  is_Some (reader_container (soup response)) ->
                  reader_link (soup response) = Some link ->
                  get_chapter_url chapter_url
                  = default chapter_url (get link "href")))).
Proof.
  unfold get_chapter_url. split.
  - by intros e ->.
  - intros response ->. simpl. split.
    + intros Hstatus. by rewrite (proj2 (Z.eqb_neq _ _) Hstatus).
    + intros ->. simpl. repeat split.
      * by intros ->.
      * intros ->. by destruct (reader_container (soup response)).
      * intros link [container ->] ->. unfold has_attr, getitem.
        by destruct (get link "href") as [href|].
Qed.

End ScraperProperties.

(** ** The scraper on the fixture site *)

Section ScraperExamples.
Import Scraper Fixtures.

(** Of the three images of the fixture chapter the second is missing: the
    other two come back, in order. *)
Lemma download_chapter_images_isolates_failures_witness :
  scraper_get reader_url = Ok (page 200 reader_markup)
  /\ raise_for_status (page 200 reader_markup) = Ok tt
  /\ image_urls_of (soup (page 200 reader_markup)) <> []
  /\ download_chapter_images reader_url "Chapter 1"
     = Some [[Byte.x01]; [Byte.x03]].
Proof.
  assert (scraper_get reader_url = Ok (page 200 reader_markup)) as Hget
    by (vm_compute; reflexivity).
  assert (raise_for_status (page 200 reader_markup) = Ok tt) as Hstatus
    by reflexivity.
  assert (image_urls_of (soup (page 200 reader_markup)) <> []) as Hurls
    by (vm_compute; discriminate).
  split; [exact Hget|]. split; [exact Hstatus|]. split; [exact Hurls|].
  rewrite (proj2 (download_chapter_images_isolates_failures
                    reader_url "Chapter 1" _ Hget Hstatus Hurls)).
  - vm_compute; reflexivity.
  - vm_compute; discriminate.
Defined.

(** The fixture search page under a limit of one. *)
Lemma search_manhwa_limit_witness :
  (0 <= 1)%Z
  /\ search_manhwa "solo leveling" 1
     = take 1 (search_accumulated "solo leveling")
  /\ (Z.of_nat (length (search_manhwa "solo leveling" 1)) <= 1)%Z.
Proof.
  split; [lia|]. apply (search_manhwa_limit "solo leveling" 1). lia.
Defined.

(** Two entries matched by ['.wp-manga-chapter'], the older one without a
    hyperlink: one record comes back, numbered 2. So N matched entries do
    not always give N records numbered 1..N. *)
Lemma get_chapters_unlinked_entry :
  let items :=
    find_chapter_items chapter_selectors (soup (page 200 unlinked_markup)) in
  scraper_get unlinked_url = Ok (page 200 unlinked_markup)
  /\ length items = 2
  /\ Chapter.index <$> get_chapters unlinked_url = [2]
  /\ ~ (length (get_chapters unlinked_url) = length items
        /\ Chapter.index <$> get_chapters unlinked_url
           = seq 1 (length items)).
Proof.
  repeat split; try (vm_compute; reflexivity).
  vm_compute. intros [Hlen _]. discriminate Hlen.
Defined.

(** The fixture chapter list (structural path) and the fixture page of
    bare hyperlinks (fallback path). *)
Lemma get_chapters_order_witness :
  (Chapter.title <$> get_chapters complete_url = ["Chapter 1"; "Chapter 2"]
   /\ Chapter.index <$> get_chapters complete_url = [1; 2]
   /\ Forall2 lists_entry (get_chapters complete_url)
        (reverse (find_chapter_items chapter_selectors
                    (soup (page 200 chapters_markup)))))
  /\ (Chapter.title <$> get_chapters links_url = ["Two"; "One"]
      /\ Chapter.index <$> get_chapters links_url = [1; 2]
      /\ Forall2 lists_link (get_chapters links_url)
           (filter (fun link => is_chapter_link link = true)
                   (select sel_a (soup (page 200 links_markup))))).
Proof.
  split.
  - split; [vm_compute; reflexivity|].
    refine (proj1 (get_chapters_order complete_url
                     (page 200 chapters_markup) _ _) _ _).
    + vm_compute; reflexivity.
    + reflexivity.
    + vm_compute; discriminate.
    + repeat constructor; eexists; eexists; split; vm_compute; reflexivity.
  - split; [vm_compute; reflexivity|].
    refine (proj2 (get_chapters_order links_url
                     (page 200 links_markup) _ _) _ _).
    + vm_compute; reflexivity.
    + reflexivity.
    + vm_compute; reflexivity.
    + repeat constructor; eexists; vm_compute; reflexivity.
Defined.

(** A fetched page with a dedicated reading-mode link and no reader
    container: the original URL comes back, not the link's target. *)
Lemma get_chapter_url_ignores_reading_mode_link :
  exists link,
    scraper_get bare_url = Ok (page 200 bare_markup)
    /\ select_one sel_reading_mode (soup (page 200 bare_markup)) = Some link
    /\ get link "href" = Some "https://toonily.com/reader/bare/1/"
    /\ get_chapter_url bare_url = bare_url
    /\ get_chapter_url bare_url <> "https://toonily.com/reader/bare/1/".
Proof.
  eexists. repeat split; try (vm_compute; reflexivity).
  vm_compute. discriminate.
Defined.

(** The fixture chapter page, and an unreachable page. *)
Lemma get_chapter_url_resolution_witness :
  get_chapter_url reader_url = "https://toonily.com/reader/complete/1/"
  /\ get_chapter_url "https://toonily.com/serie/none/chapter-1/"
     = "https://toonily.com/serie/none/chapter-1/".
Proof.
  split.
  - destruct (get_chapter_url_resolution reader_url) as [_ Hok].
    destruct (Hok (page 200 reader_markup)) as [_ H200];
      [vm_compute; reflexivity|].
    destruct (H200 eq_refl) as (_ & _ & Hlink).
    erewrite Hlink; [| vm_compute; eauto | vm_compute; reflexivity].
    vm_compute; reflexivity.
  - destruct (get_chapter_url_resolution
                "https://toonily.com/serie/none/chapter-1/") as [Hraise _].
    eapply Hraise. vm_compute; reflexivity.
Defined.

End ScraperExamples.

(** * Properties of utils/pdf_viewer.py *)

Section PdfViewerProperties.
Import PdfViewer.
Context `{Sys : System} `{Img : Imaging}.

(** ** The file system primitives keep an existing directory *)

Lemma write_file_in_place dir name w :
  is_Some (fs w !! dir) ->
  exists w',
    Os.write_file dir name w = (w', Ok tt)
    /\ is_Some (fs w' !! dir)
    /\ temp_directories w' = temp_directories w
    /\ clock w' = clock w /\ removed w' = removed w.
Proof.
  intros [entries Hdir]. unfold Os.write_file, sbind, get_world.
  rewrite Hdir. case_bool_decide.
  - exists w. unfold ret. rewrite Hdir. eauto 10.
  - eexists. unfold set_fs. split; [reflexivity|]. simpl.
    rewrite lookup_insert_eq. eauto 10.
Qed.

Lemma remove_in_place dir name w :
  is_Some (fs w !! dir) ->
  is_Some (fs (Os.remove dir name w).1 !! dir)
  /\ temp_directories (Os.remove dir name w).1 = temp_directories w
  /\ clock (Os.remove dir name w).1 = clock w
  /\ removed (Os.remove dir name w).1 = removed w.
Proof.
  intros [entries Hdir]. unfold Os.remove, sbind, get_world.
  rewrite Hdir. case_bool_decide; simpl.
  - rewrite lookup_insert_eq. eauto.
  - rewrite Hdir. eauto.
Qed.

(** ** [normalized] *)

Lemma normalized_size img : size (normalized img) = size img.
Proof. unfold normalized. by destruct (String.eqb _ _). Qed.

Lemma normalized_mode img : mode (normalized img) <> "RGBA".
Proof.
  unfold normalized. destruct (String.eqb (mode img) "RGBA") eqn:Hmode.
  - simpl. discriminate.
  - by apply String.eqb_neq.
Qed.

(** ** The loop, page by page *)

Lemma insert_image_new_page doc width height img :
  insert_image (new_page doc width height) img
  = doc ++ [ {| page_width := width; page_height := height;
                page_image := Some img |} ].
Proof.
  unfold insert_image, new_page.
  rewrite reverse_snoc. simpl. by rewrite reverse_involutive.
Qed.

Lemma add_image_pages temp_dir idx img_data doc w :
  is_Some (fs w !! temp_dir) ->
  exists w',
    add_image temp_dir idx img_data doc w
    = (w', Ok (doc ++ pages_of idx img_data))
    /\ is_Some (fs w' !! temp_dir)
    /\ temp_directories w' = temp_directories w
    /\ clock w' = clock w /\ removed w' = removed w.
Proof.
  intros Hdir. unfold add_image, prepare_image, pages_of.
  unfold sbind at 1. unfold lift at 1.
  destruct (Image_open img_data) as [src|e].
  2: { exists w. rewrite app_nil_r. eauto 10. }
  unfold sbind at 1. unfold lift at 1, raises_if at 1.
  destruct (save_raises idx (normalized src)).
  { exists w. rewrite app_nil_r. eauto 10. }
  unfold sbind at 1.
  destruct (write_file_in_place temp_dir ("temp_img_" +:+ pretty idx +:+ ".jpg")
              w Hdir) as (w1 & -> & Hdir1 & Htd & Hclock & Hrm).
  unfold ret.
  destruct (size (normalized src)) as [width height] eqn:Hsize.
  destruct (new_page_raises idx width height).
  { exists w1. rewrite app_nil_r. eauto 10. }
  destruct (insert_image_raises idx (normalized src)).
  { exists w1. unfold new_page. eauto 10. }
  destruct (remove_in_place temp_dir
              ("temp_img_" +:+ pretty idx +:+ ".jpg") w1 Hdir1)
    as (Hdir2 & Htd2 & Hclock2 & Hrm2).
  destruct (Os.remove temp_dir _ w1) as [w2 r]. simpl in *.
  exists w2. rewrite insert_image_new_page.
  repeat split; [done|congruence..].
Qed.

Lemma add_images_pages temp_dir images doc w :
  is_Some (fs w !! temp_dir) ->
  exists w',
    add_images temp_dir images doc w
    = (w', Ok (doc ++ flat_map (fun '(idx, img_data) =>
                                  pages_of idx img_data) images))
    /\ is_Some (fs w' !! temp_dir)
    /\ temp_directories w' = temp_directories w
    /\ clock w' = clock w /\ removed w' = removed w.
Proof.
  revert doc w.
  induction images as [|[idx img_data] rest IH]; intros doc w Hdir.
  - exists w. simpl. unfold ret. rewrite app_nil_r. eauto 10.
  - simpl. unfold sbind.
    destruct (add_image_pages temp_dir idx img_data doc w Hdir)
      as (w1 & -> & Hdir1 & Htd & Hclock & Hrm).
    destruct (IH (doc ++ pages_of idx img_data) w1 Hdir1)
      as (w2 & -> & Hdir2 & Htd2 & Hclock2 & Hrm2).
    exists w2. rewrite <- app_assoc.
    repeat split; [done|congruence..].
Qed.

Lemma pages_of_sized idx img_data :
  Forall (fun p =>
            forall img, page_image p = Some img ->
                        (page_width p, page_height p) = size img
                        /\ mode img <> "RGBA")
         (pages_of idx img_data).
Proof.
  unfold pages_of. destruct (Image_open img_data) as [src|]; [|done].
  destruct (save_raises _ _); [done|].
  destruct (size (normalized src)) as [width height] eqn:Hsize.
  destruct (new_page_raises _ _ _); [done|].
  constructor; [|done]. simpl. intros img Himg.
  destruct (insert_image_raises _ _); [done|].
  injection Himg as <-. split; [done | apply normalized_mode].
Qed.

Lemma pages_of_embedded idx img_data :
  omap page_image (pages_of idx img_data)
  = option_list (embedded idx img_data).
Proof.
  unfold pages_of, embedded.
  destruct (Image_open img_data) as [src|]; [|done].
  destruct (save_raises _ _); [done|]. simpl.
  destruct (size (normalized src)) as [width height] eqn:Hsize. simpl.
  destruct (new_page_raises _ _ _); [done|]. simpl.
  by destruct (insert_image_raises _ _).
Qed.

Lemma pages_of_embedded_all idx img_data :
  is_Some (embedded idx img_data) ->
  exists src,
    Image_open img_data = Ok src
    /\ pages_of idx img_data
       = [ {| page_width := (size src).1; page_height := (size src).2;
              page_image := Some (normalized src) |} ].
Proof.
  unfold pages_of, embedded. intros [img Himg].
  destruct (Image_open img_data) as [src|]; [|done].
  exists src. split; [done|].
  rewrite <- (normalized_size src).
  destruct (save_raises _ _); [done|]. simpl in Himg.
  destruct (size (normalized src)) as [width height] eqn:Hsize.
  simpl in *.
  destruct (new_page_raises _ _ _); [done|]. simpl in Himg.
  by destruct (insert_image_raises _ _).
Qed.

Lemma pages_enumerated start (images : list (list Byte.byte)) :
  let payloads := imap (fun i img_data => (start + i, img_data)) images in
  let doc :=
    flat_map (fun '(idx, img_data) => pages_of idx img_data) payloads in
  Forall (fun p =>
            forall img, page_image p = Some img ->
                        (page_width p, page_height p) = size img
                        /\ mode img <> "RGBA") doc
  /\ omap page_image doc
     = omap (fun '(idx, img_data) => embedded idx img_data) payloads
  /\ ((forall idx img_data,
         images !! idx = Some img_data ->
         is_Some (embedded (start + idx) img_data)) ->
      Forall2 (fun p img_data =>
                 exists src,
                   Image_open img_data = Ok src
                   /\ (page_width p, page_height p) = size src
                   /\ page_image p = Some (normalized src))
              doc images).
Proof.
  revert start.
  induction images as [|img_data rest IH]; intros start.
  - repeat split; [constructor | constructor].
  - cbn zeta. rewrite imap_cons. cbn [flat_map].
    replace (imap ((fun i x => (start + i, x)) ∘ S) rest)
      with (imap (fun i (x : list Byte.byte) => (S start + i, x)) rest).
    2: { apply imap_ext. intros i y _. simpl. f_equal. lia. }
    destruct (IH (S start)) as (Hsized & Hemb & Hall).
    replace (start + 0) with start by lia.
    split; [|split].
    + apply Forall_app. split; [apply pages_of_sized | done].
    + rewrite omap_app, pages_of_embedded, Hemb.
      change (omap ?f ((start, img_data) :: ?l))
        with (match embedded start img_data with
              | Some img => img :: omap f l
              | None => omap f l
              end).
      by destruct (embedded start img_data).
    + intros Hgood.
      destruct (pages_of_embedded_all start img_data)
        as (src & Hopen & ->).
      { specialize (Hgood 0 img_data eq_refl).
        by replace (start + 0) with start in Hgood by lia. }
      simpl. constructor.
      * exists src. simpl. by destruct (size src).
      * apply Hall. intros idx data Hdata.
        specialize (Hgood (S idx) data Hdata).
        by replace (start + S idx) with (S start + idx) in Hgood by lia.
Qed.

(** C4. In the document the loop builds, every page that holds an image
    has exactly the pixel dimensions of that image and the image is not
    RGBA; the embedded images are those of the payloads whose processing
    goes through, in order, whatever happens to the other payloads; and
    when every payload goes through, the document has one page per
    payload, each sized to its own decoded image. The loop itself never
    raises. *)
Theorem add_images_page_sizes temp_dir images w :
  is_Some (fs w !! temp_dir) ->
  exists w' doc,
    add_images temp_dir (enumerate images) [] w = (w', Ok doc)
    /\ Forall (fun p =>
                 forall img, page_image p = Some img ->
                             (page_width p, page_height p) = size img
                             /\ mode img <> "RGBA") doc
    /\ omap page_image doc
       = omap (fun '(idx, img_data) => embedded idx img_data)
              (enumerate images)
    /\ ((forall idx img_data,
           images !! idx = Some img_data ->
           is_Some (embedded idx img_data)) ->
        Forall2 (fun p img_data =>
                   exists src,
                     Image_open img_data = Ok src
                     /\ (page_width p, page_height p) = size src
                     /\ page_image p = Some (normalized src))
                doc images).
Proof.
  intros Hdir.
  destruct (add_images_pages temp_dir (enumerate images) [] w Hdir)
    as (w' & Hrun & _).
  exists w', (flat_map (fun '(idx, img_data) => pages_of idx img_data)
                       (enumerate images)).
  split; [exact Hrun|].
  exact (pages_enumerated 0 images).
Qed.

(** ** Failure and cleanup *)

Lemma mkdtemp_fresh prefix w w1 temp_dir :
  Os.mkdtemp prefix w = (w1, Ok temp_dir) ->
  fs w !! temp_dir = None
  /\ fs w1 = <[temp_dir := []]> (fs w)
  /\ temp_directories w1 = temp_directories w
  /\ clock w1 = clock w /\ removed w1 = removed w.
Proof.
  unfold Os.mkdtemp, sbind, get_world, lift.
  destruct (mkdtemp_pick prefix w) as [path|]; [|discriminate].
  destruct (fs w !! path) eqn:Hpath; [discriminate|].
  unfold set_fs, ret. intros [= <- <-]. by simpl.
Qed.

Lemma rmtree_removes path w :
  is_Some (fs w !! path) ->
  rmtree_denied (clock w) path = false ->
  exists w',
    Os.rmtree path w = (w', Ok tt)
    /\ fs w' = delete path (fs w)
    /\ temp_directories w' = temp_directories w
    /\ removed w' = removed w ++ [path].
Proof.
  intros [entries Hpath] Hallowed.
  unfold Os.rmtree, sbind, get_world, tick. rewrite Hpath, Hallowed.
  unfold set_fs, log_removed. simpl. eauto.
Qed.



End PdfViewerProperties.

(** ** The renderer on the fixture images *)

Section PdfViewerExamples.
Import PdfViewer Fixtures.

(** Three decodable images of distinct dimensions, one of them RGBA: three
    pages, each with the dimensions of its own image. *)
Lemma add_images_page_sizes_witness :
  is_Some (fs scratch_world !! "/tmp/manhwa_pdf_0")
  /\ exists w' doc,
       add_images "/tmp/manhwa_pdf_0"
         (enumerate [[Byte.x01]; [Byte.x02]; [Byte.x03]]) [] scratch_world
       = (w', Ok doc)
       /\ (fun p => (page_width p, page_height p)) <$> doc
          = [(800, 1200); (720, 3000); (640, 480)]%Z
       /\ Forall (fun p =>
                    forall img, page_image p = Some img ->
                                (page_width p, page_height p) = size img
                                /\ mode img <> "RGBA") doc.
Proof.
  assert (is_Some (fs scratch_world !! "/tmp/manhwa_pdf_0")) as Hdir
    by (vm_compute; eauto).
  split; [exact Hdir|].
  destruct (add_images_page_sizes "/tmp/manhwa_pdf_0"
              [[Byte.x01]; [Byte.x02]; [Byte.x03]] scratch_world Hdir)
    as (w' & doc & Hrun & Hsized & _ & _).
  exists w', doc. split; [exact Hrun|]. split; [|exact Hsized].
  vm_compute in Hrun. injection Hrun as _ <-. reflexivity.
Defined.



End PdfViewerExamples.

(** * Properties of utils/browser.py *)

Section MonadProperties.

(** ** Computations that never raise *)

Lemma never_raises_ret {A} (a : A) : never_raises (ret a).
Proof. intros w. by exists a. Qed.

Lemma never_raises_get_world : never_raises get_world.
Proof. intros w. by exists w. Qed.

Lemma never_raises_tick : never_raises tick.
Proof. intros w. by exists (clock w). Qed.

Lemma never_raises_set_temp_directories l :
  never_raises (set_temp_directories l).
Proof. intros w. by exists tt. Qed.

Lemma never_raises_sbind {A B} (c : M A) (k : A -> M B) :
  never_raises c -> (forall a, never_raises (k a)) ->
  never_raises (sbind c k).
Proof.
  intros Hc Hk w. unfold sbind.
  destruct (Hc w) as [a Ha]. destruct (c w) as [w' r].
  simpl in Ha. subst r. apply Hk.
Qed.

Lemma never_raises_try_catch {A} (c : M A) (h : exn -> M A) :
  (forall e, never_raises (h e)) -> never_raises (try_catch c h).
Proof.
  intros Hh w. unfold try_catch.
  destruct (c w) as [w' [a|e]]; [by exists a | apply Hh].
Qed.

(** ** Computations that keep a property of the disk *)

Lemma keeps_ret {A} J (a : A) : keeps J (ret a).
Proof. by intros w. Qed.

Lemma keeps_raise {A} J e : keeps J (@raise A e).
Proof. by intros w. Qed.

Lemma keeps_lift {A} J (r : result A) : keeps J (lift r).
Proof. by intros w. Qed.

Lemma keeps_get_world J : keeps J get_world.
Proof. by intros w. Qed.

Lemma keeps_tick J : keeps J tick.
Proof. by intros w. Qed.

Lemma keeps_set_temp_directories J l : keeps J (set_temp_directories l).
Proof. by intros w. Qed.

Lemma keeps_sbind {A B} J (c : M A) (k : A -> M B) :
  keeps J c -> (forall a, keeps J (k a)) -> keeps J (sbind c k).
Proof.
  intros Hc Hk w HJ. unfold sbind. specialize (Hc w HJ).
  destruct (c w) as [w' [a|e]]; simpl in *; [by apply Hk | done].
Qed.

Lemma keeps_try_catch {A} J (c : M A) (h : exn -> M A) :
  keeps J c -> (forall e, keeps J (h e)) -> keeps J (try_catch c h).
Proof.
  intros Hc Hh w HJ. unfold try_catch. specialize (Hc w HJ).
  destruct (c w) as [w' [a|e]]; simpl in *; [done | by apply Hh].
Qed.

Lemma logged_removal_closed D : removal_closed D logged.
Proof.
  intros f r d _ [Hnd Hgone] [entries Hd]. split.
  - apply NoDup_app. split; [done|]. split; [|apply NoDup_singleton].
    intros d' Hd' ->%list_elem_of_singleton.
    apply Hgone in Hd'. congruence.
  - intros d' [Hd'| ->%list_elem_of_singleton]%elem_of_app.
    + destruct (decide (d = d')) as [->|Hne];
        [apply lookup_delete_eq | rewrite lookup_delete_ne; auto].
    + apply lookup_delete_eq.
Qed.


End MonadProperties.

Create HintDb lifecycle.
#[export] Hint Resolve never_raises_ret never_raises_get_world
  never_raises_tick never_raises_set_temp_directories
  keeps_ret keeps_raise keeps_lift keeps_get_world keeps_tick
  keeps_set_temp_directories : lifecycle.

Ltac step_m :=
  repeat match goal with
    | |- never_raises (sbind _ _) =>
        apply never_raises_sbind; [|intros ?]
    | |- never_raises (try_catch _ _) =>
        apply never_raises_try_catch; intros ?
    | |- keeps _ (sbind _ _) => apply keeps_sbind; [|intros ?]
    | |- keeps _ (try_catch _ _) => apply keeps_try_catch; [|intros ?]
    | |- never_raises _ => solve [auto with lifecycle]
    | |- keeps _ _ => solve [auto with lifecycle]
    end.

Section BrowserProperties.
Import Browser.
Context `{Sys : System}.

Lemma keeps_exists J path : keeps J (Os.exists_ path).
Proof. unfold Os.exists_. step_m. Qed.

Lemma never_raises_exists path : never_raises (Os.exists_ path).
Proof. unfold Os.exists_. step_m. Qed.

Lemma keeps_listdir J path : keeps J (Os.listdir path).
Proof.
  unfold Os.listdir. step_m. destruct (fs _ !! path); step_m.
Qed.

Lemma keeps_rmtree D J path :
  removal_closed D J -> D path -> keeps J (Os.rmtree path).
Proof.
  intros Hclosed HD w HJ. unfold Os.rmtree, sbind, get_world.
  destruct (fs w !! path) as [entries|] eqn:Hpath; [|done].
  unfold tick. destruct (rmtree_denied (clock w) path); [done|].
  simpl. apply Hclosed; eauto.
Qed.

Lemma exists_missing path w :
  fs w !! path = None -> Os.exists_ path w = (w, Ok false).
Proof.
  intros Hgone. unfold Os.exists_, sbind, get_world, ret.
  rewrite Hgone. by rewrite bool_decide_false by by intros [? ?].
Qed.

Lemma keeps_for_each {A} J (l : list A) (body : A -> M unit) :
  (forall x, x ∈ l -> keeps J (body x)) -> keeps J (for_each l body).
Proof.
  induction l as [|x l IH]; intros Hbody; simpl; step_m.
  - apply Hbody. set_solver.
  - apply IH. intros y Hy. apply Hbody. set_solver.
Qed.

Lemma never_raises_for_each {A} (l : list A) (body : A -> M unit) :
  (forall x, never_raises (body x)) -> never_raises (for_each l body).
Proof. intros Hbody. induction l as [|x l IH]; simpl; step_m. Qed.

Lemma keeps_kill_all J pids : keeps J (kill_all pids).
Proof.
  unfold kill_all. apply keeps_for_each. intros pid _.
  destruct (truthy pid); step_m.
Qed.

Lemma keeps_close_pdf_users J temp_dir : keeps J (close_pdf_users temp_dir).
Proof.
  unfold close_pdf_users. destruct (String.eqb _ _); step_m.
  - apply keeps_listdir.
  - apply keeps_for_each. intros pdf_file _. step_m.
    destruct (truthy _); step_m. apply keeps_kill_all.
Qed.

(** ** [cleanup_all_temp_dirs] *)

Lemma never_raises_cleanup_temp_dir temp_dir :
  never_raises (cleanup_temp_dir temp_dir).
Proof.
  unfold cleanup_temp_dir. step_m; [apply never_raises_exists|].
  destruct a; step_m.
Qed.

Lemma keeps_cleanup_temp_dir D J temp_dir :
  removal_closed D J -> D temp_dir -> keeps J (cleanup_temp_dir temp_dir).
Proof.
  intros Hclosed HD. unfold cleanup_temp_dir.
  step_m; [apply keeps_exists|]. destruct a; step_m.
  - apply keeps_close_pdf_users.
  - by eapply keeps_rmtree.
Qed.

Lemma cleanup_temp_dir_missing temp_dir w :
  fs w !! temp_dir = None -> cleanup_temp_dir temp_dir w = (w, Ok tt).
Proof.
  intros Hgone. unfold cleanup_temp_dir, sbind.
  by rewrite exists_missing.
Qed.

Lemma never_raises_cleanup_all : never_raises cleanup_all_temp_dirs.
Proof.
  unfold cleanup_all_temp_dirs. step_m. case_bool_decide; step_m.
  apply never_raises_for_each. intros d.
  apply never_raises_cleanup_temp_dir.
Qed.

Lemma cleanup_all_keeps D J w :
  removal_closed D J ->
  (forall d, d ∈ temp_directories w -> D d) ->
  J (fs w) (removed w) ->
  J (fs (cleanup_all_temp_dirs w).1) (removed (cleanup_all_temp_dirs w).1).
Proof.
  intros Hclosed HD HJ.
  change (cleanup_all_temp_dirs w)
    with ((if bool_decide (temp_directories w = []) then ret tt
           else sbind (for_each (temp_directories w) cleanup_temp_dir)
                      (fun _ => set_temp_directories [])) w).
  case_bool_decide; [done|].
  apply (keeps_sbind J); [|intros ?; step_m|done].
  apply keeps_for_each. intros d Hd.
  eapply keeps_cleanup_temp_dir; eauto.
Qed.

Lemma cleanup_all_clears w :
  exists w',
    cleanup_all_temp_dirs w = (w', Ok tt) /\ temp_directories w' = [].
Proof.
  change (cleanup_all_temp_dirs w)
    with ((if bool_decide (temp_directories w = []) then ret tt
           else sbind (for_each (temp_directories w) cleanup_temp_dir)
                      (fun _ => set_temp_directories [])) w).
  case_bool_decide as Hreg; [by exists w|].
  unfold sbind.
  destruct (never_raises_for_each (temp_directories w) cleanup_temp_dir
              never_raises_cleanup_temp_dir w) as [[] Hrun].
  destruct (for_each _ _ w) as [w1 r]. simpl in Hrun. subst r.
  eexists. split; reflexivity.
Qed.

Lemma cleanup_all_empty w :
  temp_directories w = [] -> cleanup_all_temp_dirs w = (w, Ok tt).
Proof.
  intros Hreg. unfold cleanup_all_temp_dirs, sbind, get_world.
  by rewrite bool_decide_true.
Qed.

Lemma for_each_missing dirs w :
  (forall d, d ∈ dirs -> fs w !! d = None) ->
  for_each dirs cleanup_temp_dir w = (w, Ok tt).
Proof.
  induction dirs as [|d dirs IH]; intros Hgone; [done|].
  simpl. unfold sbind. rewrite cleanup_temp_dir_missing by set_solver.
  apply IH. intros d' Hd'. apply Hgone. set_solver.
Qed.

(** ** The cleanup thread *)

Lemma keeps_can_delete J temp_dir pdfs : keeps J (can_delete temp_dir pdfs).
Proof.
  induction pdfs as [|pdf_file rest IH]; simpl; step_m.
  destruct (open_denied _ _); step_m.
Qed.

Lemma never_raises_can_delete temp_dir pdfs :
  never_raises (can_delete temp_dir pdfs).
Proof.
  induction pdfs as [|pdf_file rest IH]; simpl; step_m.
  destruct (open_denied _ _); step_m.
Qed.

Lemma keeps_still_in_use J temp_dir pdfs :
  keeps J (still_in_use temp_dir pdfs).
Proof.
  induction pdfs as [|pdf_file rest IH]; simpl; step_m.
  destruct (truthy _); step_m.
Qed.

Lemma keeps_wait_for_viewer J fuel temp_dir :
  keeps J (wait_for_viewer fuel temp_dir).
Proof.
  induction fuel as [|fuel IH]; simpl; step_m; [apply keeps_exists|].
  destruct (negb a); step_m; [apply keeps_listdir|].
  case_bool_decide; step_m; [apply keeps_can_delete|].
  destruct a1; step_m.
Qed.

Lemma never_raises_reclaim temp_dir : never_raises (reclaim temp_dir).
Proof.
  unfold reclaim. step_m; [apply never_raises_exists|].
  destruct a; step_m.
Qed.

Lemma keeps_reclaim D J temp_dir :
  removal_closed D J -> D temp_dir -> keeps J (reclaim temp_dir).
Proof.
  intros Hclosed HD. unfold reclaim. step_m; [apply keeps_exists|].
  destruct a; step_m.
  - destruct (String.eqb _ _); step_m;
      [apply keeps_listdir | apply keeps_still_in_use].
  - destruct a; step_m; [by eapply keeps_rmtree|].
    case_bool_decide; step_m.
Qed.

Lemma reclaim_missing temp_dir w :
  fs w !! temp_dir = None -> reclaim temp_dir w = (w, Ok Finished).
Proof.
  intros Hgone. unfold reclaim, sbind. by rewrite exists_missing.
Qed.

Lemma wait_for_viewer_missing fuel temp_dir w :
  fs w !! temp_dir = None ->
  wait_for_viewer (S fuel) temp_dir w = (w, Ok true).
Proof.
  intros Hgone. simpl. unfold sbind. by rewrite exists_missing.
Qed.

Lemma thread_missing fuel temp_dir w :
  fs w !! temp_dir = None ->
  cleanup_when_viewer_closes (S fuel) temp_dir w
  = (w, Ok (Some Finished)).
Proof.
  intros Hgone. unfold cleanup_when_viewer_closes, try_catch, sbind.
  rewrite wait_for_viewer_missing by done.
  by rewrite reclaim_missing.
Qed.

Lemma never_raises_thread fuel temp_dir :
  never_raises (cleanup_when_viewer_closes fuel temp_dir).
Proof. unfold cleanup_when_viewer_closes. step_m. Qed.

Lemma keeps_thread D J fuel temp_dir :
  removal_closed D J -> D temp_dir ->
  keeps J (cleanup_when_viewer_closes fuel temp_dir).
Proof.
  intros Hclosed HD. unfold cleanup_when_viewer_closes.
  step_m; [apply keeps_wait_for_viewer|].
  destruct a; step_m. by eapply keeps_reclaim.
Qed.

(** ** Events *)

Lemma signal_handler_once w : signal_handler w = cleanup_all_temp_dirs w.
Proof.
  unfold signal_handler, sbind.
  destruct (cleanup_all_clears w) as (w' & -> & Hreg).
  by apply cleanup_all_empty.
Qed.

Lemma happen_logged w ev :
  logged (fs w) (removed w) ->
  logged (fs (happen w ev)) (removed (happen w ev)).
Proof.
  intros Hlog. destruct ev as [| |fuel temp_dir|path]; simpl.
  - by apply (cleanup_all_keeps (fun _ => True) logged);
      [apply logged_removal_closed|..].
  - rewrite signal_handler_once.
    by apply (cleanup_all_keeps (fun _ => True) logged);
      [apply logged_removal_closed|..].
  - by apply (keeps_thread (fun _ => True) logged);
      [apply logged_removal_closed|..].
  - destruct Hlog as [Hnd Hgone]. split; [done|].
    intros d Hd. destruct (decide (path = d)) as [->|Hne];
      [apply lookup_delete_eq | rewrite lookup_delete_ne; auto].
Qed.

Lemma happen_all_logged events w :
  logged (fs w) (removed w) ->
  logged (fs (foldl happen w events)) (removed (foldl happen w events)).
Proof.
  revert w. induction events as [|ev events IH]; intros w Hlog; [done|].
  simpl. apply IH. by apply happen_logged.
Qed.

(** C7. The two reclaim paths never raise. A second
    [cleanup_all_temp_dirs] does nothing (so the signal handler, which
    runs it twice, comes to one run); reclaiming a directory that the
    first reclaim has removed, or that is gone for any other reason, does
    nothing and succeeds; and whatever reclaims and external deletions
    happen, in whatever order, [shutil.rmtree] removes no directory
    twice. *)
Theorem reclaim_idempotent :
  (forall w,
     exists w',
       cleanup_all_temp_dirs w = (w', Ok tt)
       /\ cleanup_all_temp_dirs w' = (w', Ok tt))
  /\ (forall w, signal_handler w = cleanup_all_temp_dirs w)
  /\ (forall temp_dir w,
        exists w' o,
          reclaim temp_dir w = (w', Ok o)
          /\ (fs w' !! temp_dir = None ->
              reclaim temp_dir w' = (w', Ok Finished)))
  /\ (forall fuel temp_dir w,
        exists o, (cleanup_when_viewer_closes fuel temp_dir w).2 = Ok o)
  /\ (forall temp_dir w,
        fs w !! temp_dir = None ->
        cleanup_temp_dir temp_dir w = (w, Ok tt)
        /\ reclaim temp_dir w = (w, Ok Finished)
        /\ forall fuel,
             cleanup_when_viewer_closes (S fuel) temp_dir w
             = (w, Ok (Some Finished)))
  /\ (forall w,
        (forall d, d ∈ temp_directories w -> fs w !! d = None) ->
        fs (cleanup_all_temp_dirs w).1 = fs w
        /\ removed (cleanup_all_temp_dirs w).1 = removed w)
  /\ (forall events w,
        removed w = [] -> NoDup (removed (foldl happen w events))).
Proof.
  split; [|split; [|split; [|split; [|split; [|split]]]]].
  - intros w. destruct (cleanup_all_clears w) as (w' & Hrun & Hreg).
    exists w'. split; [done | by apply cleanup_all_empty].
  - apply signal_handler_once.
  - intros temp_dir w.
    destruct (never_raises_reclaim temp_dir w) as [o Ho].
    destruct (reclaim temp_dir w) as [w' r] eqn:Hrun. simpl in Ho.
    subst r. exists w', o. split; [done | apply reclaim_missing].
  - intros fuel temp_dir w. apply never_raises_thread.
  - intros temp_dir w Hgone.
    split; [by apply cleanup_temp_dir_missing|].
    split; [by apply reclaim_missing|].
    intros fuel. by apply thread_missing.
  - intros w Hgone.
    change (cleanup_all_temp_dirs w)
      with ((if bool_decide (temp_directories w = []) then ret tt
             else sbind (for_each (temp_directories w) cleanup_temp_dir)
                        (fun _ => set_temp_directories [])) w).
    case_bool_decide; [done|].
    unfold sbind. by rewrite for_each_missing.
  - intros events w Hfresh.
    apply (happen_all_logged events w).
    rewrite Hfresh. split; [apply NoDup_nil_2 | set_solver].
Qed.

End BrowserProperties.

(** * Properties of utils/viewer.py *)

Section ViewerProperties.
Import Viewer.

(** ** Zoom, in binary64 arithmetic *)











(** ** The temporary directory of a session *)

Context `{Sys : System}.


End ViewerProperties.

(** ** The lifecycle on the fixture machine *)

Section LifecycleExamples.
Import Browser Viewer Fixtures.



(** A registered directory with a PDF and a registered directory that is
    gone already: the first cleanup removes the one and skips the other,
    the second changes nothing, and a late cleanup thread for the removed
    directory does nothing either. *)
Lemma reclaim_idempotent_witness :
  exists w',
    cleanup_all_temp_dirs registered_world = (w', Ok tt)
    /\ cleanup_all_temp_dirs w' = (w', Ok tt)
    /\ removed w' = ["/tmp/manhwa_pdf_0"]
    /\ fs w' !! "/tmp/manhwa_pdf_0" = None
    /\ cleanup_when_viewer_closes 3 "/tmp/manhwa_pdf_0" w'
       = (w', Ok (Some Finished)).
Proof.
  destruct reclaim_idempotent as (Htwice & _ & _ & _ & Hmissing & _).
  destruct (Htwice registered_world) as (w' & Hrun & Hagain).
  exists w'. split; [exact Hrun|]. split; [exact Hagain|].
  assert (w' = (cleanup_all_temp_dirs registered_world).1) as ->
    by by rewrite Hrun.
  split; [vm_compute; reflexivity|].
  assert (fs (cleanup_all_temp_dirs registered_world).1
             !! "/tmp/manhwa_pdf_0" = None) as Hgone
    by (vm_compute; reflexivity).
  split; [exact Hgone|].
  apply (Hmissing _ _ Hgone).
Defined.

End LifecycleExamples.

(** * Further properties of scraper.py *)

Section SearchStages.
Import Scraper Notions.
Context `{Net : Network}.

(** ** One result page *)

Lemma add_item_step results item :
  match item_title item with
  | None => add_item results item = results
  | Some t =>
      if seen results t then add_item results item = results
      else exists r,
             add_item results item = results ++ [r]
             /\ SearchResult.title r = t
             /\ SearchResult.url r = item_url item
  end.
Proof.
  unfold add_item, item_title, item_url.
  destruct (select_one sel_title item) as [title_el|]; simpl; [|done].
  destruct (seen results (strip (text title_el))); simpl; [done|].
  by eexists.
Qed.

Lemma add_container_item_step results item :
  match item_title item with
  | None => add_container_item results item = results
  | Some t =>
      if seen results t then add_container_item results item = results
      else exists r,
             add_container_item results item = results ++ [r]
             /\ SearchResult.title r = t
             /\ SearchResult.url r = item_url item
  end.
Proof.
  unfold add_container_item, item_title, item_url.
  destruct (select_one sel_title item) as [title_el|]; simpl; [|done].
  destruct (seen results (strip (text title_el))); simpl; [done|].
  by eexists.
Qed.

(** What a loop over the items of a page accumulates, for either loop
    body. *)
Lemma accumulated_first_wins
  (body : list SearchResult.t -> element -> list SearchResult.t) items :
  (forall results item,
     match item_title item with
     | None => body results item = results
     | Some t =>
         if seen results t then body results item = results
         else exists r,
                body results item = results ++ [r]
                /\ SearchResult.title r = t
                /\ SearchResult.url r = item_url item
     end) ->
  let results := foldl body [] items in
  (forall t, t ∈ SearchResult.title <$> results <-> Some t ∈ item_title <$> items)
  /\ (forall r, r ∈ results ->
        exists i item,
          items !! i = Some item
          /\ item_title item = Some (SearchResult.title r)
          /\ SearchResult.url r = item_url item
          /\ forall j item', j < i -> items !! j = Some item' ->
                             item_title item' <> Some (SearchResult.title r)).
Proof.
  intros Hbody. induction items as [|item items IH] using rev_ind.
  - simpl. split.
    + intros t. split; intros Hin; inversion Hin.
    + intros r Hin. inversion Hin.
  - cbn zeta in *. rewrite foldl_snoc. destruct IH as [IHset IHfirst].
    set (results := foldl body [] items) in *.
    assert (forall r, r ∈ results ->
              exists i item0,
                (items ++ [item]) !! i = Some item0
                /\ item_title item0 = Some (SearchResult.title r)
                /\ SearchResult.url r = item_url item0
                /\ forall j item', j < i ->
                     (items ++ [item]) !! j = Some item' ->
                     item_title item' <> Some (SearchResult.title r))
      as Hold.
    { intros r Hr. destruct (IHfirst r Hr) as (i & item0 & Hi & Ht & Hu & Hmin).
      exists i, item0. pose proof (lookup_lt_Some _ _ _ Hi) as Hlt.
      split; [by rewrite lookup_app_l|]. split; [done|]. split; [done|].
      intros j item' Hj Hlook. rewrite lookup_app_l in Hlook by lia. eauto. }
    specialize (Hbody results item).
    destruct (item_title item) as [t|] eqn:Htitle.
    2: { rewrite Hbody. split; [|done]. intros t. rewrite IHset.
         rewrite fmap_app, elem_of_app. simpl. rewrite Htitle.
         rewrite list_elem_of_singleton.
         split; [auto | intros [?|?]; [done | discriminate]]. }
    destruct (seen results t) eqn:Hseen.
    { rewrite Hbody. split; [|done]. intros t'. rewrite IHset.
      rewrite fmap_app, elem_of_app. simpl. rewrite Htitle.
      rewrite list_elem_of_singleton. apply seen_true in Hseen.
      apply IHset in Hseen. split; [auto|]. intros [?|[= ->]]; auto. }
    destruct Hbody as (r & -> & Hrt & Hru). split.
    + intros t'. rewrite !fmap_app, !elem_of_app, IHset. simpl.
      rewrite Htitle, Hrt, !list_elem_of_singleton.
      split; (intros [?|?]; [by left | right; congruence]).
    + intros r' [Hr'| ->%list_elem_of_singleton]%elem_of_app; [by apply Hold|].
      exists (length items), item.
      split; [by rewrite lookup_app_r, Nat.sub_diag by lia|].
      split; [by rewrite Hrt|]. split; [done|].
      intros j item' Hj Hlook Htitle'. rewrite lookup_app_l in Hlook by lia.
      apply seen_false in Hseen. apply Hseen, IHset.
      rewrite Hrt in Htitle'. rewrite <- Htitle'.
      apply list_elem_of_fmap. exists item'. split; [done|].
      by eapply list_elem_of_lookup_2.
Qed.

(** X1. On one result page, through either loop body, every item that
    has a title is represented in the accumulated results, and each record
    comes from the first item of the page under its title: it carries
    that item's link target. *)
Theorem page_results_first_wins items :
  let titled t := Some t ∈ item_title <$> items in
  let first_under (r : SearchResult.t) :=
    exists i item,
      items !! i = Some item
      /\ item_title item = Some (SearchResult.title r)
      /\ SearchResult.url r = item_url item
      /\ forall j item', j < i -> items !! j = Some item' ->
                         item_title item' <> Some (SearchResult.title r) in
  ((forall t, t ∈ SearchResult.title <$> foldl add_item [] items <-> titled t)
   /\ forall r, r ∈ foldl add_item [] items -> first_under r)
  /\ ((forall t, t ∈ SearchResult.title <$> foldl add_container_item [] items
                 <-> titled t)
      /\ forall r, r ∈ foldl add_container_item [] items -> first_under r).
Proof.
  split.
  - apply (accumulated_first_wins add_item items), add_item_step.
  - apply (accumulated_first_wins add_container_item items),
      add_container_item_step.
Qed.

(** ** The order of the stages *)

(** X2. A stage that finds something silences the later ones: when the
    direct stage accumulates a record, the AJAX endpoint's answer is not
    merged in. And the alternate search URL is only asked after a 200 page
    without results: when the search page request raises or has another
    status, the outcome is what the AJAX endpoint alone gives. *)
Theorem search_stage_precedence query limit :
  (search_direct query <> [] ->
   search_manhwa query limit = slice_to (search_direct query) limit)
  /\ (no_page (scraper_get (search_url query)) ->
      search_accumulated query = search_api query []).
Proof.
  split.
  - intros Hfound. unfold search_manhwa, search_accumulated.
    assert (search_api query (search_direct query) = search_direct query)
      as -> by (unfold search_api; by rewrite bool_decide_false).
    by rewrite bool_decide_false.
  - intros Hnone. unfold search_accumulated, search_direct.
    destruct (scraper_get (search_url query)) as [response|]; [|done].
    simpl in Hnone. by rewrite (proj2 (Z.eqb_neq _ _) Hnone).
Qed.

(** X3. When neither the search page nor the AJAX endpoint brings a page
    (each request raises or has a status other than 200), the search
    returns the empty list, whatever the limit. *)
Theorem search_manhwa_degrades_to_empty query limit :
  no_page (scraper_get (search_url query)) ->
  no_page (scraper_post SEARCH_URL (search_params query)) ->
  search_manhwa query limit = [].
Proof.
  intros Hpage Hapi.
  assert (search_accumulated query = []) as Hnone.
  { unfold search_accumulated, search_direct.
    assert (search_api query [] = []) as Hempty.
    { unfold search_api. simpl.
      destruct (scraper_post _ _) as [api_response|]; [|done].
      simpl in Hapi. by rewrite (proj2 (Z.eqb_neq _ _) Hapi). }
    destruct (scraper_get (search_url query)) as [response|]; [|done].
    simpl in Hpage. by rewrite (proj2 (Z.eqb_neq _ _) Hpage). }
  unfold search_manhwa. by rewrite Hnone.
Qed.

End SearchStages.

Section ChapterListEdges.
Import Scraper Notions.
Context `{Net : Network}.

Lemma get_chapters_of_page manhwa_url :
  get_chapters manhwa_url
  = match page_of (scraper_get manhwa_url) with
    | Some response =>
        try_except (chapters_of_soup (soup response)) (fun _ => [])
    | None => []
    end.
Proof.
  unfold get_chapters, page_of, raise_for_status.
  destruct (scraper_get manhwa_url) as [response|]; simpl; [|done].
  by destruct ((400 <=? status_code response)%Z
               && (status_code response <? 600)%Z).
Qed.

Lemma append_items_dangling items chapters :
  Exists (fun '(_, item) => dangling item) items ->
  exists e, append_items items chapters = Raise e.
Proof.
  revert chapters.
  induction items as [|[idx item] rest IH]; intros chapters Hex.
  - inversion Hex.
  - cbn [append_items].
    destruct (select_one sel_a item) as [link|] eqn:Hlink.
    + unfold getitem. destruct (get link "href") as [href|] eqn:Hhref.
      * cbn [bind]. apply IH.
        apply Exists_cons in Hex as [(link' & Hlink' & Hnone)|Hex];
          [congruence | done].
      * simpl. eauto.
    + apply IH.
      apply Exists_cons in Hex as [(link' & Hlink' & Hnone)|Hex];
        [congruence | done].
Qed.

Lemma append_links_dangling links chapters :
  Exists (fun '(_, link) => get link "href" = None) links ->
  exists e, append_links links chapters = Raise e.
Proof.
  revert chapters.
  induction links as [|[idx link] rest IH]; intros chapters Hex.
  - inversion Hex.
  - cbn [append_links]. unfold getitem.
    destruct (get link "href") as [href|] eqn:Hhref.
    + cbn [bind]. apply IH.
      apply Exists_cons in Hex as [Hnone|Hex]; [congruence | done].
    + simpl. eauto.
Qed.

Lemma enumerate_Exists {A} (P : A -> Prop) (l : list A) :
  Exists P l -> Exists (fun '(_, x) => P x) (enumerate l).
Proof.
  intros (x & Hx & HP)%Exists_exists.
  apply list_elem_of_lookup in Hx as [i Hi].
  apply Exists_exists. exists (i, x). split; [|done].
  by apply (elem_of_lookup_imap_2 (fun i x => (i, x))).
Qed.

(** X4. [get_chapters] answers with the empty list when the request
    raises or has an error status, when the page has neither a chapter
    entry nor a chapter link, and also when a single hyperlink it wants to
    read has no target: one such entry (or, on the fallback path, one such
    chapter link) empties the whole list. *)
Theorem get_chapters_empty_cases manhwa_url :
  (page_of (scraper_get manhwa_url) = None -> get_chapters manhwa_url = [])
  /\ (forall response,
        page_of (scraper_get manhwa_url) = Some response ->
        let items := find_chapter_items chapter_selectors (soup response) in
        let links :=
          filter (fun link => is_chapter_link link = true)
                 (select sel_a (soup response)) in
        (Exists dangling items -> get_chapters manhwa_url = [])
        /\ (items = [] ->
            Exists (fun link => get link "href" = None) links ->
            get_chapters manhwa_url = [])
        /\ (items = [] -> links = [] -> get_chapters manhwa_url = [])).
Proof.
  rewrite get_chapters_of_page. split; [by intros ->|].
  intros response -> items links. unfold chapters_of_soup.
  fold items. fold links. split; [|split].
  - intros Hex.
    assert (items <> []) as Hne by (intros Hnil; rewrite Hnil in Hex; inversion Hex).
    rewrite bool_decide_false by done.
    destruct (append_items_dangling (enumerate (reverse items)) [])
      as [e ->]; [|done].
    apply enumerate_Exists, Exists_exists.
    apply Exists_exists in Hex as (item & Hitem & Hd).
    exists item. split; [by apply elem_of_reverse | done].
  - intros Hnil Hex. rewrite bool_decide_true by done.
    assert (links <> []) as Hne by (intros Hl; rewrite Hl in Hex; inversion Hex).
    rewrite bool_decide_false by done. simpl.
    destruct (append_links_dangling (enumerate links) []) as [e ->];
      [by apply enumerate_Exists | done].
  - intros Hnil Hlinks. rewrite bool_decide_true by done.
    rewrite bool_decide_true by done. simpl. by rewrite Hnil.
Qed.

(** ** Skipped entries leave gaps *)




End ChapterListEdges.

Section ImageAcquisition.
Import Scraper Notions.
Context `{Net : Network}.

Lemma img_url_of_preferred img : img_url_of img = preferred_source img.
Proof.
  unfold img_url_of, preferred_source, get_default, str_or.
  destruct (get img "data-src") as [[|c s]|]; simpl;
    destruct (get img "data-lazy-src") as [[|c' s']|]; simpl; try done;
    by destruct (get img "src") as [[|c'' s'']|].
Qed.

Lemma truthy_nonempty s : truthy s = true <-> s <> "".
Proof. destruct s; simpl; split; congruence. Qed.

(** X6. Every URL the extraction yields is non-empty and is the preferred
    source of an image element of the page (inside the reader container,
    when there is one); without a reader container, it also contains one
    of the tokens "chapter", "manga", "comic". *)
Theorem image_urls_preferred soup :
  let scope := default soup (reader_container soup) in
  Forall (fun img_url =>
            img_url <> ""
            /\ (exists img,
                  img ∈ select sel_all_img scope
                  /\ img_url = preferred_source img)
            /\ (reader_container soup = None -> has_content_token img_url))
         (image_urls_of soup).
Proof.
  intros scope. apply Forall_forall. intros img_url Hin.
  unfold image_urls_of in Hin. subst scope.
  destruct (reader_container soup) as [container|]; simpl.
  - apply list_elem_of_filter in Hin as [Htruthy Hin].
    apply list_elem_of_In, in_map_iff in Hin as (img & <- & Himg).
    split; [by apply truthy_nonempty|]. split; [|done].
    exists img. split; [by apply list_elem_of_In | apply img_url_of_preferred].
  - apply list_elem_of_filter in Hin as [Hkeep Hin].
    apply list_elem_of_In, in_map_iff in Hin as (img & <- & Himg).
    apply andb_true_iff in Hkeep as [Htruthy Htoken].
    split; [by apply truthy_nonempty|]. split.
    + exists img.
      split; [by apply list_elem_of_In | apply img_url_of_preferred].
    + intros _. unfold has_content_token.
      apply orb_true_iff in Htoken as [Htoken|Htoken]; [|auto].
      apply orb_true_iff in Htoken as [Htoken|Htoken]; auto.
Qed.

Lemma download_chapter_images_of_page chapter_url chapter_title :
  download_chapter_images chapter_url chapter_title
  = match page_of (scraper_get chapter_url) with
    | Some response =>
        let images :=
          omap (fun '(i, img_url) => fetched chapter_url i img_url)
               (enumerate (image_urls_of (soup response))) in
        if bool_decide (images = []) then None else Some images
    | None => None
    end.
Proof.
  unfold download_chapter_images, page_of, raise_for_status.
  destruct (scraper_get chapter_url) as [response|]; simpl; [|done].
  destruct ((400 <=? status_code response)%Z
            && (status_code response <? 600)%Z); simpl; [done|].
  rewrite download_loop_fetched. simpl. by case_bool_decide.
Qed.

Lemma length_omap_le {A B} (f : A -> option B) (l : list A) :
  length (omap f l) <= length l.
Proof.
  induction l as [|x l IH]; [done|].
  change (omap f (x :: l))
    with (match f x with Some y => y :: omap f l | None => omap f l end).
  destruct (f x); simpl; lia.
Qed.

(** X7. [download_chapter_images] gives the failure signal when the
    chapter page cannot be had (the request raises or has an error status)
    and when the page yields no image URL; what it returns otherwise is
    never an empty list, and never longer than the list of image URLs. *)
Theorem download_chapter_images_outcomes chapter_url chapter_title :
  (page_of (scraper_get chapter_url) = None ->
   download_chapter_images chapter_url chapter_title = None)
  /\ (forall response,
        page_of (scraper_get chapter_url) = Some response ->
        image_urls_of (soup response) = [] ->
        download_chapter_images chapter_url chapter_title = None)
  /\ (forall images,
        download_chapter_images chapter_url chapter_title = Some images ->
        images <> []
        /\ exists response,
             page_of (scraper_get chapter_url) = Some response
             /\ length images <= length (image_urls_of (soup response))).
Proof.
  rewrite download_chapter_images_of_page.
  split; [by intros ->|]. split.
  - intros response -> Hnone. by rewrite Hnone.
  - intros images.
    destruct (page_of (scraper_get chapter_url)) as [response|]; [|done].
    cbn zeta. case_bool_decide as Hne; [done|]. intros [= <-].
    split; [done|]. exists response. split; [done|].
    etransitivity; [apply length_omap_le|].
    unfold enumerate. by rewrite length_imap.
Qed.

(** ** The viewer's own copy *)

Lemma viewer_download_loop chapter_url image_urls images :
  (forall i img_url headers headers',
     lookup_attr "Referer" headers = lookup_attr "Referer" headers' ->
     scraper_get_image i img_url headers
     = scraper_get_image i img_url headers') ->
  ViewerApp.download_loop chapter_url image_urls images
  = download_loop chapter_url image_urls images.
Proof.
  intros Hreferer. revert images.
  induction image_urls as [|[i img_url] rest IH]; intros images; [done|].
  simpl. rewrite IH. f_equal.
  unfold ViewerApp.fetch_image, fetch_image.
  by rewrite (Hreferer i img_url (ViewerApp.image_headers chapter_url)
                (image_headers chapter_url)).
Qed.

(** X8. viewer.py carries its own copy of [download_chapter_images], with
    another User-Agent. When the image host looks at the referer only, the
    two copies return the same. *)
Theorem viewer_download_agrees chapter_url chapter_title :
  (forall i img_url headers headers',
     lookup_attr "Referer" headers = lookup_attr "Referer" headers' ->
     scraper_get_image i img_url headers
     = scraper_get_image i img_url headers') ->
  ViewerApp.download_chapter_images chapter_url chapter_title
  = download_chapter_images chapter_url chapter_title.
Proof.
  intros Hreferer.
  unfold ViewerApp.download_chapter_images, download_chapter_images.
  destruct (scraper_get chapter_url) as [response|]; simpl; [|done].
  destruct (raise_for_status response); simpl; [|done].
  by rewrite viewer_download_loop.
Qed.

End ImageAcquisition.

(** * Properties of the chapter-opening code *)

Section Maintains.
Import Notions.

Lemma maintains_ret {A} J (a : A) : maintains J (ret a).
Proof. by intros w. Qed.

Lemma maintains_raise {A} J e : maintains J (@raise A e).
Proof. by intros w. Qed.

Lemma maintains_lift {A} J (r : result A) : maintains J (lift r).
Proof. by intros w. Qed.

Lemma maintains_get_world J : maintains J get_world.
Proof. by intros w. Qed.

Lemma maintains_tick J : maintains J tick.
Proof. by intros w. Qed.

Lemma maintains_sbind {A B} J (c : M A) (k : A -> M B) :
  maintains J c -> (forall a, maintains J (k a)) -> maintains J (sbind c k).
Proof.
  intros Hc Hk w HJ. unfold sbind. specialize (Hc w HJ).
  destruct (c w) as [w' [a|e]]; simpl in *; [by apply Hk | done].
Qed.

Lemma maintains_try_catch {A} J (c : M A) (h : exn -> M A) :
  maintains J c -> (forall e, maintains J (h e)) ->
  maintains J (try_catch c h).
Proof.
  intros Hc Hh w HJ. unfold try_catch. specialize (Hc w HJ).
  destruct (c w) as [w' [a|e]]; simpl in *; [done | by apply Hh].
Qed.

Lemma maintains_exists J path : maintains J (Os.exists_ path).
Proof.
  unfold Os.exists_. apply maintains_sbind;
    [apply maintains_get_world | intros ?; apply maintains_ret].
Qed.

Lemma maintains_listdir J path : maintains J (Os.listdir path).
Proof.
  unfold Os.listdir. apply maintains_sbind; [apply maintains_get_world|].
  intros w. destruct (fs w !! path);
    [apply maintains_ret | apply maintains_raise].
Qed.

Lemma maintains_write_file d f0 l0 r0 name :
  maintains (inside d f0 l0 r0) (Os.write_file d name).
Proof.
  intros w ([entries Hfs] & Hl & Hr). unfold Os.write_file, sbind, get_world.
  rewrite Hfs, lookup_insert_eq. case_bool_decide; simpl.
  - split; eauto.
  - rewrite insert_insert_eq. split; eauto.
Qed.

Lemma maintains_remove d f0 l0 r0 name :
  maintains (inside d f0 l0 r0) (Os.remove d name).
Proof.
  intros w ([entries Hfs] & Hl & Hr). unfold Os.remove, sbind, get_world.
  rewrite Hfs, lookup_insert_eq. case_bool_decide; simpl.
  - rewrite insert_insert_eq. split; eauto.
  - split; eauto.
Qed.

End Maintains.

Import Notions.

#[export] Hint Resolve maintains_ret maintains_raise maintains_lift
  maintains_get_world maintains_tick maintains_exists maintains_listdir
  maintains_write_file maintains_remove : lifecycle.

Ltac step_w :=
  repeat match goal with
    | |- maintains _ (sbind _ _) => apply maintains_sbind; [|intros ?]
    | |- maintains _ (try_catch _ _) =>
        apply maintains_try_catch; [|intros ?]
    | |- maintains _ (if ?b then _ else _) => destruct b
    | |- maintains _ (match ?o with Some _ => _ | None => _ end) =>
        destruct o
    | |- maintains _ _ => solve [auto with lifecycle]
    end.

Section RenderingOutcomes.
Import PdfViewer.
Context `{Sys : System} `{Img : Imaging}.

Lemma maintains_prepare_image d f0 l0 r0 idx img_data :
  maintains (inside d f0 l0 r0) (prepare_image d idx img_data).
Proof. unfold prepare_image. step_w. Qed.

Lemma maintains_add_image d f0 l0 r0 idx img_data doc :
  maintains (inside d f0 l0 r0) (add_image d idx img_data doc).
Proof.
  intros w HJ. unfold add_image.
  pose proof (maintains_prepare_image d f0 l0 r0 idx img_data w HJ) as H1.
  destruct (prepare_image d idx img_data w) as [w1 [pil_img|e]];
    simpl in *; [|done].
  destruct (size pil_img) as [width height].
  destruct (new_page_raises idx width height); [done|].
  destruct (insert_image_raises idx pil_img); [done|].
  pose proof (maintains_remove d f0 l0 r0
                ("temp_img_" +:+ pretty idx +:+ ".jpg") w1 H1) as H2.
  by destruct (Os.remove d _ w1) as [w2 r].
Qed.

Lemma maintains_add_images d f0 l0 r0 images doc :
  maintains (inside d f0 l0 r0) (add_images d images doc).
Proof.
  revert doc. induction images as [|[idx img_data] rest IH]; intros doc;
    simpl; step_w. apply maintains_add_image.
Qed.

Lemma maintains_build_pdf d f0 l0 r0 images title :
  maintains (inside d f0 l0 r0) (build_pdf d images title).
Proof.
  unfold build_pdf. cbn zeta. step_w. apply maintains_add_images.
Qed.

Lemma mkdtemp_raises prefix w w1 e :
  Os.mkdtemp prefix w = (w1, Raise e) -> w1 = w.
Proof.
  unfold Os.mkdtemp, sbind, get_world, lift.
  destruct (mkdtemp_pick prefix w) as [path|]; [|by intros [= <-]].
  destruct (fs w !! path); [by intros [= <-] | discriminate].
Qed.

Lemma write_file_member dir name w w' :
  Os.write_file dir name w = (w', Ok tt) ->
  exists entries, fs w' !! dir = Some entries /\ name ∈ entries.
Proof.
  unfold Os.write_file, sbind, get_world.
  destruct (fs w !! dir) as [entries|] eqn:Hdir; [|discriminate].
  case_bool_decide as Hin.
  - intros [= <-]. eauto.
  - unfold set_fs. intros [= <-]. simpl. rewrite lookup_insert_eq.
    eexists. split; [done|]. set_solver.
Qed.

Lemma rmtree_outcome path w w' r :
  Os.rmtree path w = (w', r) ->
  temp_directories w' = temp_directories w
  /\ match r with
     | Ok _ =>
         is_Some (fs w !! path) /\ fs w' = delete path (fs w)
         /\ removed w' = removed w ++ [path]
     | Raise _ => fs w' = fs w /\ removed w' = removed w
     end.
Proof.
  unfold Os.rmtree, sbind, get_world, tick.
  destruct (fs w !! path) as [entries|] eqn:Hpath;
    [|by intros [= <- <-]].
  destruct (rmtree_denied (clock w) path); [by intros [= <- <-]|].
  unfold set_fs, log_removed. simpl. intros [= <- <-]. simpl. eauto.
Qed.

Lemma build_pdf_success temp_dir images title w1 wf r :
  build_pdf temp_dir images title w1 = (wf, Ok r) ->
  r = (Os.join temp_dir (pdf_name title), temp_dir)
  /\ exists entries,
       fs wf !! temp_dir = Some entries /\ pdf_name title ∈ entries.
Proof.
  unfold build_pdf, sbind, lift, raises_if, ret.
  destruct fitz_open_raises; [discriminate|].
  destruct (add_images temp_dir (enumerate images) [] w1)
    as [w2 [doc|e]]; [|discriminate].
  destruct (set_metadata_raises doc); [discriminate|].
  destruct (doc_save_raises doc _); [discriminate|].
  destruct (Os.write_file temp_dir (pdf_name title) w2)
    as [w3 [[]|e]] eqn:Hwrite; [|discriminate].
  destruct (doc_close_raises doc); [discriminate|].
  intros [= <- <-]. split; [done|]. by eapply write_file_member.
Qed.

(** What [create_pdf_from_images] leaves behind, outcome by outcome. *)
Lemma create_pdf_spec images title w w' r :
  create_pdf_from_images images title w = (w', r) ->
  temp_directories w' = temp_directories w
  /\ match r with
     | Ok (Some (pdf_path, temp_dir)) =>
         pdf_path = Os.join temp_dir (pdf_name title)
         /\ fs w !! temp_dir = None
         /\ removed w' = removed w
         /\ exists entries,
              fs w' = <[temp_dir := entries]> (fs w)
              /\ pdf_name title ∈ entries
     | Ok None => fs w' = fs w
     | Raise _ =>
         exists temp_dir entries,
           fs w !! temp_dir = None
           /\ fs w' = <[temp_dir := entries]> (fs w)
     end.
Proof.
  unfold create_pdf_from_images.
  destruct (Os.mkdtemp "manhwa_pdf_" w) as [w1 [temp_dir|e]] eqn:Hmk.
  2: { apply mkdtemp_raises in Hmk as ->. by intros [= <- <-]. }
  apply mkdtemp_fresh in Hmk as (Hfresh & Hfs1 & Hreg1 & _ & Hrm1).
  assert (inside temp_dir (fs w) (temp_directories w) (removed w)
            (fs w1) (temp_directories w1) (removed w1)) as Hin1
    by (split; eauto).
  apply (maintains_build_pdf temp_dir (fs w) (temp_directories w)
           (removed w) images title w1) in Hin1 as Hbuild.
  destruct (build_pdf temp_dir images title w1) as [w2 [handle|e]] eqn:Hrun;
    simpl in Hbuild; destruct Hbuild as ([entries Hfs2] & Hreg2 & Hrm2).
  - intros [= <- <-].
    apply build_pdf_success in Hrun as (-> & entries' & Hlook & Hin).
    split; [done|]. split; [done|]. split; [done|]. split; [done|].
    exists entries. split; [done|].
    rewrite Hfs2, lookup_insert_eq in Hlook. by injection Hlook as ->.
  - unfold sbind.
    destruct (Os.rmtree temp_dir w2) as [w3 [[]|e']] eqn:Hrmtree;
      unfold ret; intros [= <- <-];
      apply rmtree_outcome in Hrmtree as (Hreg3 & Hout).
    + split; [congruence|]. destruct Hout as (_ & -> & _).
      rewrite Hfs2. by rewrite delete_insert_eq, delete_id.
    + split; [congruence|]. destruct Hout as [-> _].
      exists temp_dir, entries. by rewrite Hfs2.
Qed.


(** ** Temporary images *)




End RenderingOutcomes.

Section OpeningProperties.
Import Scraper PdfViewer Opening.
Context `{Net : Network} `{Sys : System} `{Img : Imaging} `{Lnch : Launcher}.

Lemma maintains_write_file_holding d name f0 l0 r0 name' :
  maintains (holding d name f0 l0 r0) (Os.write_file d name').
Proof.
  intros w ((entries & Hfs & Hin) & Hl & Hr).
  unfold Os.write_file, sbind, get_world.
  rewrite Hfs, lookup_insert_eq. case_bool_decide; simpl.
  - split; eauto.
  - rewrite insert_insert_eq. split; [|done].
    eexists. split; [done|]. set_solver.
Qed.

Lemma maintains_run_checked J args : maintains J (run_checked args).
Proof. unfold run_checked. step_w. Qed.

Lemma maintains_open_pdf J pdf_path :
  maintains J (open_pdf_with_system_viewer pdf_path).
Proof.
  unfold open_pdf_with_system_viewer. step_w;
    apply maintains_run_checked.
Qed.

Lemma maintains_open_in_browser J url : maintains J (open_in_browser url).
Proof.
  unfold open_in_browser.
  destruct (String.eqb platform_system "Darwin");
    [apply maintains_run_checked|].
  destruct (String.eqb platform_system "Linux");
    [apply maintains_run_checked|].
  step_w.
Qed.

Lemma maintains_present d name f0 l0 r0 pdf_path :
  maintains (holding d name f0 l0 r0)
    (sbind (if truthy d then write_marker d else ret tt)
           (fun _ => open_pdf_with_system_viewer pdf_path)).
Proof.
  apply maintains_sbind; [|intros ?; apply maintains_open_pdf].
  destruct (truthy d); [|apply maintains_ret].
  unfold write_marker. step_w. apply maintains_write_file_holding.
Qed.

Lemma exists_present path w :
  is_Some (fs w !! path) -> Os.exists_ path w = (w, Ok true).
Proof.
  intros Hdir. unfold Os.exists_, sbind, get_world, ret.
  by rewrite bool_decide_true.
Qed.

(** The last lines of [view_manhwa_as_pdf] on a directory made for this
    call. *)
Lemma discard_restores d entries f0 w2 w3 r :
  fs w2 = <[d := entries]> f0 -> f0 !! d = None ->
  sbind (Os.exists_ d)
        (fun present : bool => if present then Os.rmtree d else ret tt) w2
  = (w3, r) ->
  temp_directories w3 = temp_directories w2
  /\ match r with Ok _ => fs w3 = f0 | Raise _ => True end.
Proof.
  intros Hfs Hfresh. unfold sbind.
  rewrite exists_present by (rewrite Hfs, lookup_insert_eq; eauto).
  intros Hrm. apply rmtree_outcome in Hrm as (Hreg & Hout).
  split; [done|]. destruct r as [[]|]; [|done].
  destruct Hout as (_ & -> & _). rewrite Hfs.
  by rewrite delete_insert_eq, delete_id.
Qed.

(** What [view_manhwa_as_pdf] leaves behind, outcome by outcome. *)
Lemma view_spec images title w w' r :
  view_manhwa_as_pdf images title w = (w', r) ->
  temp_directories w' = temp_directories w
  /\ match r with
     | Ok (true, o) =>
         exists temp_dir,
           o = Some temp_dir
           /\ fs w !! temp_dir = None
           /\ removed w' = removed w
           /\ exists entries,
                fs w' = <[temp_dir := entries]> (fs w)
                /\ pdf_name title ∈ entries
     | Ok (false, o) =>
         o = None /\ forall d, d <> "" -> fs w' !! d = fs w !! d
     | Raise _ => True
     end.
Proof.
  unfold view_manhwa_as_pdf. unfold sbind at 1.
  destruct (create_pdf_from_images images title w) as [w1 rc] eqn:Hcreate.
  apply create_pdf_spec in Hcreate as [Hreg1 Hcreate].
  destruct rc as [[[pdf_path temp_dir]|]|e].
  3: { by intros [= <- <-]. }
  2: { unfold sbind, ret. simpl. intros [= <- <-].
       split; [done|]. split; [done|]. intros d _. by rewrite Hcreate. }
  destruct Hcreate as (-> & Hfresh & Hrm1 & entries & Hfs1 & Hpdf).
  simpl fmap. unfold sbind at 1.
  assert (holding temp_dir (pdf_name title) (fs w) (temp_directories w)
            (removed w) (fs w1) (temp_directories w1) (removed w1))
    as Hheld by (split; eauto).
  set (present :=
    if truthy (Os.join temp_dir (pdf_name title)) then
      sbind (if truthy temp_dir then write_marker temp_dir else ret tt)
            (fun _ => open_pdf_with_system_viewer
                        (Os.join temp_dir (pdf_name title)))
    else ret false).
  assert (maintains (holding temp_dir (pdf_name title) (fs w)
                       (temp_directories w) (removed w)) present)
    as Hpresent.
  { subst present. destruct (truthy _);
      [apply maintains_present | apply maintains_ret]. }
  apply Hpresent in Hheld. clear Hpresent.
  destruct (present w1) as [w2 [success|e]]; simpl in Hheld;
    destruct Hheld as ((entries2 & Hfs2 & Hpdf2) & Hreg2 & Hrm2).
  2: { by intros [= <- <-]. }
  destruct success.
  { unfold ret. intros [= <- <-]. split; [done|]. eauto 10. }
  destruct (truthy temp_dir) eqn:Hname.
  - unfold sbind at 1.
    destruct (sbind (Os.exists_ temp_dir) _ w2) as [w3 r3] eqn:Hdiscard.
    apply (discard_restores temp_dir entries2 (fs w)) in Hdiscard
      as [Hreg3 Hout]; [|done..].
    destruct r3 as [[]|e]; unfold ret; intros [= <- <-].
    + split; [congruence|]. split; [done|]. intros d _. by rewrite Hout.
    + split; [congruence | done].
  - unfold sbind, ret. intros [= <- <-]. split; [done|]. split; [done|].
    intros d Hd. rewrite Hfs2. apply lookup_insert_ne.
    intros <-. destruct temp_dir; [done | discriminate].
Qed.


(** ** open_chapter *)

Lemma open_chapter_spec url title w :
  exists w' b,
    open_chapter url title w = (w', Ok b)
    /\ (temp_directories w' = temp_directories w
        \/ exists temp_dir entries,
             temp_directories w' = temp_directories w ++ [temp_dir]
             /\ fs w !! temp_dir = None
             /\ fs w' = <[temp_dir := entries]> (fs w)
             /\ pdf_name title ∈ entries
             /\ b = true)
    /\ (b = false ->
        exists now e, webbrowser_open now url = Raise e).
Proof.
  unfold open_chapter.
  set (handler := fun _ : exn =>
    try_catch
      (sbind tick (fun now =>
       sbind (lift (webbrowser_open now url)) (fun _ => ret true)))
      (fun _ => ret false)).
  assert (forall w1,
            exists w' b,
              handler (OSError "") w1 = (w', Ok b)
              /\ temp_directories w' = temp_directories w1
              /\ fs w' = fs w1
              /\ (b = false ->
                  exists now e, webbrowser_open now url = Raise e))
    as Hhandler.
  { intros w1. unfold handler, try_catch, sbind, tick, lift, ret. simpl.
    destruct (webbrowser_open (clock w1) url) as [opened|e] eqn:Hopen.
    - eexists _, true. by repeat split.
    - eexists _, false. repeat split. eauto. }
  assert (forall e w1, handler e w1 = handler (OSError "") w1) as Hany
    by done.
  set (fallback := sbind (open_in_browser url) (fun _ => ret true)).
  assert (forall w1,
            exists w' b,
              try_catch fallback handler w1 = (w', Ok b)
              /\ temp_directories w' = temp_directories w1
              /\ fs w' = fs w1
              /\ (b = false ->
                  exists now e, webbrowser_open now url = Raise e))
    as Hfallback.
  { intros w1. unfold try_catch, fallback, sbind.
    pose proof (maintains_open_in_browser
                  (unchanged (fs w1) (temp_directories w1) (removed w1))
                  url w1 ltac:(done)) as (Hfs & Hreg & _).
    destruct (open_in_browser url w1) as [w2 [[]|e]]; simpl in *.
    - eexists _, true. unfold ret. by repeat split.
    - destruct (Hhandler w2) as (w' & b & Hrun & Hreg' & Hfs' & Hb).
      exists w', b. rewrite Hany, Hrun.
      split; [done|]. split; [congruence|]. split; [congruence | done]. }
  destruct (download_chapter_images url title) as [[|img images]|].
  1, 3: destruct (Hfallback w) as (w' & b & Hrun & Hreg & _ & Hb);
        exists w', b; split; [exact Hrun|]; split; [by left | done].
  unfold try_catch. unfold sbind at 1. unfold sbind at 1.
  destruct (view_manhwa_as_pdf (img :: images) title w)
    as [w1 r] eqn:Hview.
  apply view_spec in Hview as [Hreg1 Hout].
  destruct r as [[[] o]|e].
  - destruct Hout as (temp_dir & -> & Hfresh & _ & entries & Hfs1 & Hpdf).
    cbn beta iota zeta.
    destruct (truthy temp_dir) eqn:Hname.
    + unfold sbind, register, get_world, set_temp_directories, ret.
      cbn beta iota zeta.
      eexists _, true. split; [reflexivity|]. simpl. split; [|done].
      right. exists temp_dir, entries. rewrite Hreg1. by repeat split.
    + unfold sbind, ret. cbn beta iota zeta. eexists _, true.
      split; [reflexivity|]. split; [by left | done].
  - unfold ret. cbn beta iota zeta.
    destruct (Hfallback w1) as (w' & b & Hrun & Hreg & _ & Hb).
    unfold try_catch, fallback in Hrun.
    exists w', b. split; [exact Hrun|]. split; [left; congruence | done].
  - destruct (Hhandler w1) as (w' & b & Hrun & Hreg & _ & Hb).
    exists w', b. rewrite Hany, Hrun.
    split; [done|]. split; [left; congruence | done].
Qed.

(** X12. [open_chapter] never raises, whatever the network, the imaging
    libraries and the desktop do; and it returns [False] only when the
    last resort, [webbrowser.open], has raised. *)
Theorem open_chapter_total url title w :
  exists b,
    (open_chapter url title w).2 = Ok b
    /\ (b = false -> exists now e, webbrowser_open now url = Raise e).
Proof.
  destruct (open_chapter_spec url title w) as (w' & b & -> & _ & Hb).
  by exists b.
Qed.


End OpeningProperties.

(** * Further properties of utils/browser.py *)

Section LifecycleOutcomes.
Import Browser.
Context `{Sys : System}.

(** ** Everything registered goes at exit *)

Lemma never_raises_close_loop temp_dir pdfs :
  never_raises
    (for_each pdfs (fun pdf_file =>
       let pdf_path := Os.join temp_dir pdf_file in
       try_catch
         (sbind tick (fun now =>
          sbind (lift (subprocess_run now ["lsof"; "-t"; pdf_path]))
                (fun stdout =>
                   if truthy (strip stdout)
                   then kill_all (split_lines (strip stdout))
                   else ret tt)))
         (fun _ => ret tt))).
Proof. apply never_raises_for_each. intros pdf_file. cbn zeta. step_m. Qed.

Lemma close_pdf_users_ok temp_dir w :
  is_Some (fs w !! temp_dir) ->
  exists w1,
    close_pdf_users temp_dir w = (w1, Ok tt)
    /\ fs w1 = fs w /\ removed w1 = removed w.
Proof.
  intros [entries Hdir].
  pose proof (keeps_close_pdf_users
                (fun f r => f = fs w /\ r = removed w) temp_dir w
                ltac:(done)) as [Hfs Hrm].
  assert (exists a, (close_pdf_users temp_dir w).2 = Ok a) as [[] Hok].
  { unfold close_pdf_users.
    destruct (String.eqb platform_system "Darwin"); [|by exists tt].
    unfold sbind at 1. unfold Os.listdir, sbind at 1, get_world.
    rewrite Hdir. unfold ret at 1.
    apply never_raises_close_loop. }
  destruct (close_pdf_users temp_dir w) as [w1 r]. simpl in *. subst r.
  by exists w1.
Qed.

Lemma cleanup_temp_dir_removes temp_dir w :
  (forall t, rmtree_denied t temp_dir = false) ->
  fs (cleanup_temp_dir temp_dir w).1 = delete temp_dir (fs w).
Proof.
  intros Hallowed.
  destruct (fs w !! temp_dir) as [entries|] eqn:Hdir.
  2: { rewrite cleanup_temp_dir_missing by done. simpl.
       by rewrite delete_id. }
  unfold cleanup_temp_dir, sbind at 1.
  rewrite exists_present by eauto. unfold try_catch, sbind.
  destruct (close_pdf_users_ok temp_dir w) as (w1 & -> & Hfs1 & _);
    [by eauto|].
  destruct (rmtree_removes temp_dir w1) as (w2 & -> & Hfs2 & _);
    [rewrite Hfs1; eauto | apply Hallowed |].
  simpl. by rewrite Hfs2, Hfs1.
Qed.

Lemma for_each_removes dirs w :
  (forall d t, d ∈ dirs -> rmtree_denied t d = false) ->
  fs (for_each dirs cleanup_temp_dir w).1
  = foldl (fun f d => delete d f) (fs w) dirs.
Proof.
  revert w. induction dirs as [|d dirs IH]; intros w Hallowed; [done|].
  simpl. unfold sbind.
  pose proof (cleanup_temp_dir_removes d w
                (fun t => Hallowed d t ltac:(set_solver))) as Hone.
  destruct (never_raises_cleanup_temp_dir d w) as [[] Hok].
  destruct (cleanup_temp_dir d w) as [w1 r]. simpl in *. subst r.
  rewrite IH by (intros d' t Hd'; apply Hallowed; set_solver).
  by rewrite Hone.
Qed.

Lemma lookup_removed_all dirs (f : gmap string (list string)) d :
  foldl (fun f d => delete d f) f dirs !! d
  = if bool_decide (d ∈ dirs) then None else f !! d.
Proof.
  revert f. induction dirs as [|d' dirs IH]; intros f.
  - by rewrite bool_decide_false by set_solver.
  - cbn [foldl]. rewrite IH. destruct (decide (d = d')) as [->|Hne].
    + rewrite (bool_decide_true (d' ∈ d' :: dirs)) by (by left).
      case_bool_decide; [done | apply lookup_delete_eq].
    + rewrite lookup_delete_ne by done.
      case_bool_decide as Hin.
      * by rewrite (bool_decide_true (d ∈ d' :: dirs)) by (by right).
      * rewrite (bool_decide_false (d ∈ d' :: dirs)); [done|].
        by intros [?|?]%elem_of_cons.
Qed.

(** X14. When no removal fails, [cleanup_all_temp_dirs] (what runs at
    exit and on SIGINT/SIGTERM) leaves the registry empty, none of the
    registered directories on disk, and every other directory as it
    was. *)
Theorem cleanup_all_removes_registered w :
  (forall d t, d ∈ temp_directories w -> rmtree_denied t d = false) ->
  let w' := (cleanup_all_temp_dirs w).1 in
  temp_directories w' = []
  /\ (forall d, d ∈ temp_directories w -> fs w' !! d = None)
  /\ (forall d, d ∉ temp_directories w -> fs w' !! d = fs w !! d)
  /\ (signal_handler w).1 = w'.
Proof.
  intros Hallowed w'.
  assert (fs w' = foldl (fun f d => delete d f) (fs w) (temp_directories w))
    as Hfs.
  { unfold w'.
    change (cleanup_all_temp_dirs w)
      with ((if bool_decide (temp_directories w = []) then ret tt
             else sbind (for_each (temp_directories w) cleanup_temp_dir)
                        (fun _ => set_temp_directories [])) w).
    case_bool_decide as Hreg; [by rewrite Hreg|].
    unfold sbind.
    pose proof (for_each_removes (temp_directories w) w Hallowed) as Hall.
    destruct (never_raises_for_each (temp_directories w) cleanup_temp_dir
                never_raises_cleanup_temp_dir w) as [[] Hok].
    destruct (for_each _ _ w) as [w1 r]. simpl in *. by subst r. }
  split; [|split; [|split]].
  - unfold w'. destruct (cleanup_all_clears w) as (w1 & -> & Hreg). done.
  - intros d Hd. rewrite Hfs, lookup_removed_all.
    by rewrite bool_decide_true.
  - intros d Hd. rewrite Hfs, lookup_removed_all.
    by rewrite bool_decide_false.
  - by rewrite signal_handler_once.
Qed.

(** ** One thread's reclaim *)



(** ** Polling *)

Lemma can_delete_held temp_dir pdfs pdf_file w :
  pdf_file ∈ pdfs ->
  (forall t, open_denied t (Os.join temp_dir pdf_file) = true) ->
  (can_delete temp_dir pdfs w).2 = Ok false.
Proof.
  intros Hin Hheld. revert w.
  induction pdfs as [|pdf rest IH]; intros w; [inversion Hin|].
  simpl. unfold sbind, tick.
  destruct (open_denied (clock w) (Os.join temp_dir pdf)) eqn:Hopen;
    [done|].
  apply IH. apply elem_of_cons in Hin as [->|Hin]; [|done].
  by rewrite Hheld in Hopen.
Qed.

Lemma wait_for_viewer_held fuel temp_dir entries pdf_file w :
  fs w !! temp_dir = Some entries ->
  pdf_file ∈ pdf_files entries ->
  (forall t, open_denied t (Os.join temp_dir pdf_file) = true) ->
  exists w',
    wait_for_viewer fuel temp_dir w = (w', Ok false)
    /\ fs w' = fs w /\ temp_directories w' = temp_directories w
    /\ removed w' = removed w.
Proof.
  intros Hdir Hin Hheld. revert w Hdir.
  induction fuel as [|fuel IH]; intros w Hdir; [by exists w|].
  cbn [wait_for_viewer]. unfold sbind at 1.
  rewrite exists_present by eauto. cbn [negb].
  unfold sbind at 1. unfold Os.listdir, sbind at 1, get_world.
  rewrite Hdir. unfold ret at 1.
  rewrite bool_decide_false by (intros Hnil; rewrite Hnil in Hin; inversion Hin).
  unfold sbind at 1.
  pose proof (can_delete_held temp_dir (pdf_files entries) pdf_file w
                Hin Hheld) as Hfree.
  assert (maintains (unchanged (fs w) (temp_directories w) (removed w))
            (can_delete temp_dir (pdf_files entries))) as Hkeep.
  { generalize (pdf_files entries) as pdfs.
    induction pdfs as [|pdf rest IHp]; simpl; step_w. }
  specialize (Hkeep w ltac:(done)).
  destruct (can_delete temp_dir (pdf_files entries) w) as [w1 r].
  simpl in *. subst r. destruct Hkeep as (Hfs1 & Hreg1 & Hrm1).
  destruct (IH w1) as (w' & Hrun & Hfs & Hreg & Hrm); [by rewrite Hfs1|].
  exists w'. split; [done|]. repeat split; congruence.
Qed.

(** X16. While another process holds a PDF of the directory (opening it
    for appending keeps failing), the cleanup thread only polls: however
    many rounds it is given, it has not left its loop, and the directory,
    the registry and the log of removals are as they were. *)
Theorem viewer_thread_waits temp_dir entries pdf_file w fuel :
  fs w !! temp_dir = Some entries ->
  pdf_file ∈ pdf_files entries ->
  (forall t, open_denied t (Os.join temp_dir pdf_file) = true) ->
  exists w',
    cleanup_when_viewer_closes fuel temp_dir w = (w', Ok None)
    /\ fs w' = fs w /\ temp_directories w' = temp_directories w
    /\ removed w' = removed w.
Proof.
  intros Hdir Hin Hheld.
  destruct (wait_for_viewer_held fuel temp_dir entries pdf_file w
              Hdir Hin Hheld) as (w' & Hrun & Hsame).
  exists w'. unfold cleanup_when_viewer_closes, try_catch, sbind.
  by rewrite Hrun.
Qed.

End LifecycleOutcomes.

(** * Properties of utils/display.py *)

Section PromptProperties.
Import Display.


(** ** Pages *)

Lemma page_chapters_take chapters current_page :
  page_chapters chapters current_page
  = take chapters_per_page
         (drop ((current_page - 1) * chapters_per_page) chapters).
Proof.
  unfold page_chapters. cbn zeta.
  set (start_idx := (current_page - 1) * chapters_per_page).
  destruct (decide (start_idx + chapters_per_page <= length chapters)).
  - f_equal. lia.
  - rewrite !take_ge; [done | | ]; rewrite length_drop; lia.
Qed.

Lemma concat_chunks {A} (n k : nat) (l : list A) :
  length l <= k * n ->
  concat ((fun i => take n (drop (i * n) l)) <$> seq 0 k) = l.
Proof.
  revert l. induction k as [|k IH]; intros l Hlen.
  - destruct l; [done | simpl in Hlen; lia].
  - cbn [seq fmap list_fmap concat]. rewrite <- fmap_S_seq, <- list_fmap_compose.
    rewrite drop_0.
    transitivity (take n l ++ drop n l); [|apply take_drop]. f_equal.
    rewrite <- (IH (drop n l)) by (rewrite length_drop; lia).
    f_equal. apply list_fmap_ext. intros ? i ?. unfold compose.
    by rewrite drop_drop.
Qed.

Lemma total_pages_bounds chapters :
  length chapters <= total_pages chapters * chapters_per_page
  /\ (total_pages chapters - 1) * chapters_per_page < length chapters
     \/ chapters = [].
Proof.
  unfold total_pages, chapters_per_page.
  pose proof (Nat.div_mod_eq (length chapters + 20 - 1) 20) as Hdiv.
  pose proof (Nat.mod_upper_bound (length chapters + 20 - 1) 20) as Hmod.
  destruct chapters as [|c chapters]; [by right|]. left.
  simpl length in *. lia.
Qed.

(** X18. The pages 1..[total_pages] cut the chapter list into consecutive
    pieces: put end to end they give the list back, none of them is empty
    and none holds more than 20 chapters. *)
Theorem pages_partition chapters :
  concat (page_chapters chapters <$> seq 1 (total_pages chapters))
  = chapters
  /\ Forall (fun p =>
               0 < length (page_chapters chapters p) <= chapters_per_page)
            (seq 1 (total_pages chapters)).
Proof.
  split.
  - rewrite <- fmap_S_seq, <- list_fmap_compose.
    rewrite <- (concat_chunks chapters_per_page (total_pages chapters)
                  chapters) at 3.
    + f_equal. apply list_fmap_ext. intros _ p _. simpl.
      rewrite page_chapters_take. do 3 f_equal. lia.
    + destruct (total_pages_bounds chapters) as [[H _]| ->]; [lia | done].
  - apply Forall_forall. intros p [Hlo Hhi]%elem_of_seq.
    rewrite page_chapters_take, length_take, length_drop.
    destruct (total_pages_bounds chapters) as [[_ H]| ->];
      [|simpl in Hhi; unfold total_pages in Hhi; simpl in Hhi; lia].
    unfold chapters_per_page in *. nia.
Qed.

Section WithInt.
Variable int : string -> option Z.

Lemma chapters_loop_in_range chapters current_page keys :
  let shown p := 1 <= p <= 1 `max` total_pages chapters in
  shown current_page ->
  Forall (fun page => exists p, shown p /\ page = page_chapters chapters p)
         (chapters_loop int chapters current_page keys).1
  /\ match (chapters_loop int chapters current_page keys).2 with
     | Selected idx => is_Some (chapters !! idx)
     | _ => True
     end.
Proof.
  intros shown. revert current_page.
  assert (forall p, shown p ->
            Forall (fun page =>
                      exists p, shown p /\ page = page_chapters chapters p)
                   [page_chapters chapters p]) as Hone.
  { intros p Hp. constructor; [by exists p | constructor]. }
  induction keys as [|[line|] keys IH]; intros current_page Hpage.
  - split; [by apply Hone | done].
  - cbn [chapters_loop]. cbn zeta.
    assert (forall p, shown p ->
              let '(pages, r) := chapters_loop int chapters p keys in
              Forall (fun page =>
                        exists p, shown p
                                  /\ page = page_chapters chapters p)
                     (page_chapters chapters current_page :: pages)
              /\ match r with
                 | Selected idx => is_Some (chapters !! idx)
                 | _ => True
                 end) as Hagain.
    { intros p Hp. specialize (IH p Hp).
      destruct (chapters_loop int chapters p keys) as [pages r].
      destruct IH as [Hpages Hsel]. split; [|done].
      constructor; [by exists current_page | done]. }
    destruct (String.eqb (lower (strip line)) "0");
      [split; [by apply Hone | done]|].
    destruct (String.eqb (lower (strip line)) "p" && (1 <? current_page)%nat)
      eqn:Hprev.
    { apply andb_true_iff in Hprev as [_ Hprev%Nat.ltb_lt].
      specialize (Hagain (current_page - 1)).
      destruct (chapters_loop int chapters (current_page - 1) keys).
      apply Hagain. unfold shown in *. lia. }
    destruct (String.eqb (lower (strip line)) "n"
              && (current_page <? total_pages chapters)%nat) eqn:Hnext.
    { apply andb_true_iff in Hnext as [_ Hnext%Nat.ltb_lt].
      specialize (Hagain (current_page + 1)).
      destruct (chapters_loop int chapters (current_page + 1) keys).
      apply Hagain. unfold shown in *. lia. }
    specialize (Hagain current_page Hpage).
    destruct (chapters_loop int chapters current_page keys).
    destruct (int (lower (strip line))) as [n|]; [|done].
    destruct ((0 <=? n - 1)%Z && (n - 1 <? Z.of_nat (length chapters))%Z)
      eqn:Hrange; [|done].
    apply andb_true_iff in Hrange as [Hlo%Z.leb_le Hhi%Z.ltb_lt].
    split; [by apply Hone|]. apply lookup_lt_is_Some. lia.
  - split; [by apply Hone | done].
Qed.

(** X19. Whatever is typed at the chapter prompt, the page shown is
    always one of the pages 1..[total_pages] (page 1 for an empty list),
    starting with page 1; and a selection is the position of a chapter of
    the list, on whatever page it is. *)
Theorem display_chapters_in_range chapters keys :
  let shown p := 1 <= p <= 1 `max` total_pages chapters in
  Forall (fun page => exists p, shown p /\ page = page_chapters chapters p)
         (display_chapters int chapters keys).1
  /\ head (display_chapters int chapters keys).1
     = Some (page_chapters chapters 1)
  /\ match (display_chapters int chapters keys).2 with
     | Selected idx => is_Some (chapters !! idx)
     | _ => True
     end.
Proof.
  intros shown. unfold display_chapters.
  destruct (chapters_loop_in_range chapters 1 keys) as [Hpages Hsel];
    [unfold shown; lia|].
  split; [done|]. split; [|done].
  destruct keys as [|[line|] keys]; [done| |done].
  cbn [chapters_loop]. cbn zeta.
  repeat match goal with
         | |- context [chapters_loop int chapters ?p keys] =>
             destruct (chapters_loop int chapters p keys)
         | |- context [if ?b then _ else _] => destruct b
         | |- context [match int ?s with _ => _ end] => destruct (int s)
         end; done.
Qed.

End WithInt.

End PromptProperties.

(** * The viewer session and the life of a chapter's directory *)

Section SessionProperties.
Import Scraper PdfViewer Opening Browser.
Context `{Net : Network} `{Sys : System} `{Img : Imaging} `{Lnch : Launcher}.

(** X20. [open_chapter_in_viewer] never raises, whatever happens in the
    session. Without downloaded images it returns [False] and has touched
    nothing; it returns [True] only when images were downloaded and the
    viewer got a new directory of its own. *)
Theorem open_chapter_in_viewer_outcomes mainloop chapter_url chapter_title w :
  let run :=
    ViewerApp.open_chapter_in_viewer mainloop chapter_url chapter_title w in
  exists b,
    run.2 = Ok b
    /\ (ViewerApp.download_chapter_images chapter_url chapter_title = None ->
        run = (w, Ok false))
    /\ (b = true ->
        exists images temp_dir,
          ViewerApp.download_chapter_images chapter_url chapter_title
          = Some images
          /\ images <> []
          /\ mkdtemp_pick "manhwa_viewer_" w = Ok temp_dir
          /\ fs w !! temp_dir = None).
Proof.
  intros run. subst run. unfold ViewerApp.open_chapter_in_viewer.
  destruct (ViewerApp.download_chapter_images chapter_url chapter_title)
    as [[|img_data images]|].
  1, 3: by exists false.
  unfold try_catch, sbind at 1. unfold Viewer.init, sbind at 1.
  unfold Os.mkdtemp, sbind at 1. unfold get_world, sbind at 1, lift.
  destruct (mkdtemp_pick "manhwa_viewer_" w) as [temp_dir|e] eqn:Hpick;
    [|by exists false].
  destruct (fs w !! temp_dir) eqn:Hfresh; [by exists false|].
  unfold sbind, set_fs, ret.
  match goal with
  | |- context [mainloop ?v ?w1] => destruct (mainloop v w1) as [w2 [[]|e]]
  end; [|by exists false].
  exists true. split; [done|]. split; [done|]. intros _.
  by exists (img_data :: images), temp_dir.
Qed.

(** ** From [open_chapter] to the end of its cleanup thread *)









End SessionProperties.

(** * Scenarios for the further properties *)

Section FurtherExamples.
Import Scraper PdfViewer Opening Browser Fixtures Scenarios.

(** A search that finds its results on the search page, and one for
    which the site answers nothing. *)
Lemma search_stage_precedence_witness :
  search_manhwa "solo leveling" 10
  = slice_to (search_direct "solo leveling") 10
  /\ search_accumulated "nothing" = search_api "nothing" [].
Proof.
  split.
  - apply (proj1 (search_stage_precedence "solo leveling" 10)).
    vm_compute. discriminate.
  - apply (proj2 (search_stage_precedence "nothing" 10)).
    vm_compute. exact I.
Defined.

Lemma search_manhwa_degrades_to_empty_witness :
  search_manhwa "nothing" 10 = [].
Proof.
  apply search_manhwa_degrades_to_empty; vm_compute; exact I.
Defined.

(** A page that cannot be had, a stale entry, a stale chapter link, and a
    page without chapters. *)
Lemma get_chapters_empty_cases_witness :
  get_chapters "https://toonily.com/serie/none/" = []
  /\ get_chapters (Net := stale_network) stale_url = []
  /\ get_chapters (Net := stale_network) stale_links_url = []
  /\ get_chapters bare_url = [].
Proof.
  split; [|split; [|split]].
  - apply (proj1 (get_chapters_empty_cases
                    "https://toonily.com/serie/none/")).
    vm_compute; reflexivity.
  - destruct (get_chapters_empty_cases (Net := stale_network) stale_url)
      as [_ Hpage].
    destruct (Hpage (page 200 stale_markup)) as (Hstale & _ & _);
      [vm_compute; reflexivity|].
    apply Hstale. apply Exists_exists.
    eexists. split; [apply list_elem_of_lookup; exists 1; reflexivity|].
    eexists. split; reflexivity.
  - destruct (get_chapters_empty_cases (Net := stale_network)
                stale_links_url) as [_ Hpage].
    destruct (Hpage (page 200 stale_links_markup)) as (_ & Hstale & _);
      [vm_compute; reflexivity|].
    apply Hstale; [vm_compute; reflexivity|].
    apply Exists_exists.
    eexists. split; [apply list_elem_of_lookup; exists 1; reflexivity|].
    reflexivity.
  - destruct (get_chapters_empty_cases bare_url) as [_ Hpage].
    destruct (Hpage (page 200 bare_markup)) as (_ & _ & Hnone);
      [vm_compute; reflexivity|].
    apply Hnone; vm_compute; reflexivity.
Defined.


(** A chapter that cannot be had, a page without images, and the chapter
    of which two images arrive. *)
Lemma download_chapter_images_outcomes_witness :
  download_chapter_images "https://toonily.com/serie/none/chapter-1/"
                          "Chapter 1" = None
  /\ download_chapter_images bare_url "Chapter 1" = None
  /\ [[Byte.x01]; [Byte.x03]] <> [].
Proof.
  split; [|split].
  - apply (proj1 (download_chapter_images_outcomes
                    "https://toonily.com/serie/none/chapter-1/"
                    "Chapter 1")).
    vm_compute; reflexivity.
  - destruct (download_chapter_images_outcomes bare_url "Chapter 1")
      as (_ & Hempty & _).
    apply (Hempty (page 200 bare_markup)); vm_compute; reflexivity.
  - destruct (download_chapter_images_outcomes reader_url "Chapter 1")
      as (_ & _ & Hsome).
    apply (Hsome [[Byte.x01]; [Byte.x03]]). vm_compute; reflexivity.
Defined.

(** The image host of the fixtures looks at the referer only. *)
Lemma viewer_download_agrees_witness :
  ViewerApp.download_chapter_images reader_url "Chapter 1"
  = download_chapter_images reader_url "Chapter 1".
Proof.
  apply viewer_download_agrees.
  intros i img_url headers headers' Hreferer. simpl.
  rewrite Hreferer. reflexivity.
Defined.




(** Two registered directories, one of them gone already. *)
Lemma cleanup_all_removes_registered_witness :
  let w' := (cleanup_all_temp_dirs registered_world).1 in
  temp_directories w' = []
  /\ (forall d, d ∈ temp_directories registered_world -> fs w' !! d = None)
  /\ (forall d, d ∉ temp_directories registered_world ->
                fs w' !! d = fs registered_world !! d)
  /\ (signal_handler registered_world).1 = w'.
Proof.
  apply (cleanup_all_removes_registered registered_world).
  intros d t Hregistered. reflexivity.
Defined.


(** The viewer holds the PDF: the thread is still polling after 100
    rounds. *)
Lemma viewer_thread_waits_witness :
  exists w',
    cleanup_when_viewer_closes (Sys := system_busy) 100
      "/tmp/manhwa_pdf_0" registered_world = (w', Ok None)
    /\ fs w' = fs registered_world
    /\ temp_directories w' = temp_directories registered_world
    /\ removed w' = removed registered_world.
Proof.
  apply (viewer_thread_waits (Sys := system_busy) "/tmp/manhwa_pdf_0"
           ["Chapter_1.pdf"] "Chapter_1.pdf" registered_world 100).
  - vm_compute; reflexivity.
  - vm_compute. left.
  - intros t. reflexivity.
Defined.


End FurtherExamples.
